(** * Media Shrinker: bitrate, feasibility, quality and orchestration models

    A shallow embedding of the estimation functions of
    [src/hooks/useTranscoder.ts], the resolution planner of
    [src/lib/resolution.ts] and the two transcode orchestrators
    ([useTranscoder], [useTranscoderPro]).

    JavaScript numbers are kept abstract behind the class [JsNum]; every
    source function is translated once, over that class, and read at two
    instances:
    - [Q], exact rational arithmetic, in which the statements quantified
      over all numbers are proved;
    - [float], IEEE 754 binary64 (what a JavaScript engine computes), in
      which the concrete evaluations are re-run.

    Optional parameters are [option]s; a function that throws returns a
    [result]. What a closure reads of its React hook (the [progress],
    [isLoaded], [engine] and [error] states of the render that created it)
    is a parameter of the function, and the states a hook can be in when
    a closure is created are an inductive predicate over the hook's
    events. What the external collaborators do (the browser's video
    element, FFmpeg with its duration probe, MediaBunny, the clock) is an
    environment record, and every call made on the FFmpeg engine is
    recorded in a trace. Timestamps and byte counts are integers. Console
    output is not modelled. *)

From Stdlib Require Import ZArith QArith Qround Qabs Lqa Lia Bool List.
From Stdlib Require Import String Ascii DecimalString.
From Stdlib Require Import Floats.
Import ListNotations.

Set Implicit Arguments.

(** ** Numbers *)

Class JsNum (A : Type) : Type := {
  ofZ : Z -> A;
  jadd : A -> A -> A;
  jsub : A -> A -> A;
  jmul : A -> A -> A;
  jdiv : A -> A -> A;
  jleb : A -> A -> bool;
  jltb : A -> A -> bool;
  jmin : A -> A -> A;
  jmax : A -> A -> A;
  jfloor : A -> A;
  jceil : A -> A;
  jround : A -> A
}.

Declare Scope js_scope.
Delimit Scope js_scope with js.
Infix "+" := jadd : js_scope.
Infix "-" := jsub : js_scope.
Infix "*" := jmul : js_scope.
Infix "/" := jdiv : js_scope.
Infix "<=?" := jleb : js_scope.
Infix "<?" := jltb : js_scope.
Notation "x >=? y" := (jleb y x) (at level 70) : js_scope.
Notation "x >? y" := (jltb y x) (at level 70) : js_scope.

(** A decimal literal [n / 10^k] of the source, e.g. [0.02] is [dec 2 100].
    Both operands are exact, so the quotient is the literal's value in the
    exact instance and the nearest binary64 number in the float instance. *)
Definition dec {A} `{JsNum A} (n d : Z) : A := jdiv (ofZ n) (ofZ d).

(** JavaScript truthiness of a number: neither zero nor NaN. *)
Definition truthy {A} `{JsNum A} (x : A) : bool :=
  jltb (ofZ 0) x || jltb x (ofZ 0).

(** [isFinite(x)]: [x - x] is zero exactly when [x] is neither infinite
    nor NaN. *)
Definition jsFinite {A} `{JsNum A} (x : A) : bool :=
  jleb (jsub x x) (ofZ 0) && jleb (ofZ 0) (jsub x x).

(** *** Exact instance *)

Definition Qleb (x y : Q) : bool := Qle_bool x y.
Definition Qltb (x y : Q) : bool := negb (Qle_bool y x).
Definition Qmin' (x y : Q) : Q := if Qle_bool x y then x else y.
Definition Qmax' (x y : Q) : Q := if Qle_bool x y then y else x.
Definition Qfloor' (x : Q) : Q := inject_Z (Qfloor x).
Definition Qceil' (x : Q) : Q := inject_Z (Qceiling x).
(** [Math.round] rounds to the nearest integer, ties towards plus infinity. *)
Definition Qround' (x : Q) : Q := inject_Z (Qfloor (x + (1 # 2))).

#[global] Instance JsNum_Q : JsNum Q := {|
  ofZ := inject_Z;
  jadd := Qplus; jsub := Qminus; jmul := Qmult; jdiv := Qdiv;
  jleb := Qleb; jltb := Qltb;
  jmin := Qmin'; jmax := Qmax';
  jfloor := Qfloor'; jceil := Qceil'; jround := Qround'
|}.

(** *** Binary64 instance

    Arithmetic and comparisons are the primitive IEEE 754 operations.
    [Math.floor], [Math.ceil] and [Math.round] are computed exactly from the
    mantissa and exponent; their results are below 2^53 in absolute value
    whenever the exponent is negative. The sign of a zero is not
    distinguished by [min] and [max]. *)

Module Binary64.

(** The double nearest to an integer (ties to even, infinite beyond the
    range), as a numeric literal or [parseInt] of its digits gives it. *)
Definition float_of_Z (z : Z) : float :=
  SF2Prim (binary_normalize prec emax z 0 false).

(** The integer [rnd (m * 2^e)] of a finite float with mantissa [m] and a
    negative exponent [e]; [rnd] is given on the fraction [n / 2^k]. *)
Definition to_integral (rnd : Z -> Z -> Z) (x : float) : float :=
  match Prim2SF x with
  | S754_finite s m e =>
      match e with
      | Zneg k =>
          let n := if s then Z.opp (Zpos m) else Zpos m in
          let r := rnd n (Z.pow 2 (Zpos k)) in
          if Z.eqb r 0 then (if s then PrimFloat.opp PrimFloat.zero else PrimFloat.zero)
          else float_of_Z r
      | _ => x
      end
  | _ => x
  end.

Definition floor : float -> float := to_integral (fun n d => Z.div n d).
Definition ceil : float -> float :=
  to_integral (fun n d => Z.opp (Z.div (Z.opp n) d)).
Definition round : float -> float :=
  to_integral (fun n d => Z.div (2 * n + d) (2 * d)).

Definition min (x y : float) : float :=
  if PrimFloat.is_nan x then x else if PrimFloat.is_nan y then y
  else if PrimFloat.leb x y then x else y.
Definition max (x y : float) : float :=
  if PrimFloat.is_nan x then x else if PrimFloat.is_nan y then y
  else if PrimFloat.leb x y then y else x.

End Binary64.

#[global] Instance JsNum_float : JsNum float := {|
  ofZ := Binary64.float_of_Z;
  jadd := PrimFloat.add; jsub := PrimFloat.sub;
  jmul := PrimFloat.mul; jdiv := PrimFloat.div;
  jleb := PrimFloat.leb; jltb := PrimFloat.ltb;
  jmin := Binary64.min; jmax := Binary64.max;
  jfloor := Binary64.floor; jceil := Binary64.ceil; jround := Binary64.round
|}.

(** ** Results of fallible code *)

Inductive result (E A : Type) : Type :=
| Ok (a : A)
| Err (e : E).
Arguments Ok {E A} a.
Arguments Err {E A} e.

(** ** Bitrate calculator ([calculateBitrate], useTranscoder.ts) *)

Inductive BitrateError : Type :=
| InvalidDuration
| InvalidTargetSize.

(** ** Resolution presets (lib/resolution.ts) *)

Inductive OutputResolution : Type :=
| Original
| R1080p
| R720p
| R480p.

Inductive QualityLevel : Type :=
| Excellent
| Good
| Fair
| Poor
| VeryPoor.

Record Dimensions (A : Type) : Type := {
  width : A;
  height : A
}.

Section Estimation.
Context {A : Type} `{JsNum A}.
Local Open Scope js_scope.

Definition BUFFER_MIN_MB : A := dec 244140625 1000000000.
Definition BUFFER_MAX_MB : A := ofZ 2.

(** The safety buffer and the adjusted size (first lines of
    [calculateBitrate], and of [calculateVideoBitrate] below). *)
Definition bufferMB (targetSizeMB : A) : A :=
  jmin BUFFER_MAX_MB (jmax BUFFER_MIN_MB (targetSizeMB * dec 2 100)).

Definition adjustedTargetSizeMB (targetSizeMB : A) : A :=
  jmax (dec 1 10) (targetSizeMB - bufferMB targetSizeMB).

Definition calculateBitrate (targetSizeMB durationSeconds audioBitrateKbps : A)
  : result BitrateError A :=
  if durationSeconds <=? ofZ 0 then Err InvalidDuration
  else if targetSizeMB <=? ofZ 0 then Err InvalidTargetSize
  else
    let targetSizeKbits := adjustedTargetSizeMB targetSizeMB * ofZ 8192 in
    let totalBitrateKbps := targetSizeKbits / durationSeconds in
    let videoBitrateKbps := totalBitrateKbps - audioBitrateKbps in
    let bitrateWithOverhead := videoBitrateKbps * dec 95 100 in
    Ok (jfloor bitrateWithOverhead).

(** *** Minimum size ([calculateMinimumSize], useTranscoder.ts) *)

Definition calculateMinimumSize (durationSeconds : A) : A :=
  let minVideoBitrateKbps := ofZ 100 in
  let audioBitrateKbps := ofZ 128 in
  let totalBitrateKbps := minVideoBitrateKbps + audioBitrateKbps in
  let bitrateWithOverhead := totalBitrateKbps / dec 95 100 in
  let minSizeMB := (bitrateWithOverhead * durationSeconds) / ofZ 8192 in
  jceil (minSizeMB * ofZ 10) / ofZ 10.

(** *** Quality to size ([calculateTargetSizeForQuality]) *)

(** [x || dflt] on an optional number. *)
Definition orDefault (x : option A) (dflt : A) : A :=
  match x with
  | Some v => if truthy v then v else dflt
  | None => dflt
  end.

(** [x && y] used as a condition on two optional numbers. *)
Definition bothTruthy (x y : option A) : option (A * A) :=
  match x, y with
  | Some v, Some w => if truthy v && truthy w then Some (v, w) else None
  | _, _ => None
  end.

(** The output resolution the resolver assumes (first block of
    [calculateTargetSizeForQuality]). *)
Definition assumedOutputSize (inputWidth inputHeight : option A) : A * A :=
  let outputWidth := orDefault inputWidth (ofZ 1920) in
  let outputHeight := orDefault inputHeight (ofZ 1080) in
  match bothTruthy inputWidth inputHeight with
  | Some (w, h) =>
      if (w >? ofZ 1920) || (h >? ofZ 1080) then
        let aspectRatio := w / h in
        if (w >? ofZ 2560) || (h >? ofZ 1440)
        then (jround (ofZ 720 * aspectRatio), ofZ 720)
        else (jround (ofZ 1080 * aspectRatio), ofZ 1080)
      else (outputWidth, outputHeight)
  | None => (outputWidth, outputHeight)
  end.

(** Bits per pixel for a score (second block of
    [calculateTargetSizeForQuality]). *)
Definition bitratePerPixelForScore (qualityScore : A) : A :=
  if qualityScore >=? ofZ 90 then
    dec 15 100 + ((qualityScore - ofZ 90) / ofZ 10) * dec 10 100
  else if qualityScore >=? ofZ 70 then
    dec 10 100 + ((qualityScore - ofZ 70) / ofZ 20) * dec 5 100
  else if qualityScore >=? ofZ 50 then
    dec 6 100 + ((qualityScore - ofZ 50) / ofZ 20) * dec 4 100
  else if qualityScore >=? ofZ 30 then
    dec 3 100 + ((qualityScore - ofZ 30) / ofZ 20) * dec 3 100
  else
    (qualityScore / ofZ 30) * dec 3 100.

Definition calculateTargetSizeForQuality
    (qualityScore durationSeconds : A) (inputWidth inputHeight : option A) : A :=
  let '(outputWidth, outputHeight) := assumedOutputSize inputWidth inputHeight in
  let pixels := outputWidth * outputHeight in
  let fps := ofZ 30 in
  let bitratePerPixel := bitratePerPixelForScore qualityScore in
  let videoBitrateKbps := (bitratePerPixel * pixels * fps) / ofZ 1000 in
  let audioBitrateKbps := ofZ 128 in
  let totalBitrateKbps := (videoBitrateKbps + audioBitrateKbps) / dec 95 100 in
  let targetSizeMB := (totalBitrateKbps * durationSeconds) / ofZ 8192 in
  jmax (dec 1 10) (jceil (targetSizeMB * ofZ 10) / ofZ 10).

Definition getRecommendedTargetSize (durationSeconds : A) : A :=
  calculateTargetSizeForQuality (ofZ 75) durationSeconds None None.

(** *** [validateTargetSize] *)

Record SizeValidation : Type := {
  valid : bool;
  minSizeMB : A;
  recommendedSizeMB : A
}.

Definition validateTargetSize (durationSeconds targetSizeMB : A)
  : result BitrateError SizeValidation :=
  let minSize := calculateMinimumSize durationSeconds in
  let recommendedSize := getRecommendedTargetSize durationSeconds in
  match calculateBitrate targetSizeMB durationSeconds (ofZ 128) with
  | Err e => Err e
  | Ok calculatedBitrate =>
      Ok {| valid := calculatedBitrate >=? ofZ 100;
            minSizeMB := minSize;
            recommendedSizeMB := recommendedSize |}
  end.

(** *** Resolution planner ([getTargetDimensions], lib/resolution.ts) *)

Definition RESOLUTION_PRESETS (r : OutputResolution) : option (Dimensions A) :=
  match r with
  | Original => None
  | R1080p => Some {| width := ofZ 1920; height := ofZ 1080 |}
  | R720p => Some {| width := ofZ 1280; height := ofZ 720 |}
  | R480p => Some {| width := ofZ 854; height := ofZ 480 |}
  end.

Definition getTargetDimensions
    (outputResolution : OutputResolution) (inputWidth inputHeight : A)
  : option (Dimensions A) :=
  match RESOLUTION_PRESETS outputResolution with
  | None => None
  | Some preset =>
      if (inputWidth <=? width preset) && (inputHeight <=? height preset)
      then None
      else
        let aspectRatio := inputWidth / inputHeight in
        if inputWidth >=? inputHeight then
          let width0 := jmin (width preset) inputWidth in
          let height0 := jround (width0 / aspectRatio) in
          if height0 >? height preset then
            let height1 := jmin (height preset) inputHeight in
            Some {| width := jround (height1 * aspectRatio); height := height1 |}
          else Some {| width := width0; height := height0 |}
        else
          let height0 := jmin (height preset) inputHeight in
          let width0 := jround (height0 * aspectRatio) in
          if width0 >? width preset then
            let width1 := jmin (width preset) inputWidth in
            Some {| width := width1; height := jround (width1 / aspectRatio) |}
          else Some {| width := width0; height := height0 |}
  end.

(** *** Quality estimate ([estimateQuality], useTranscoder.ts) *)

Record QualityEstimate : Type := {
  score : A;
  level : QualityLevel;
  bitratePerPixel : A;
  estimatedQualityLoss : A
}.

(** Audio bitrate in kbps selected by the two flags. *)
Definition audioBitrateKbpsOf (removeAudio optimizeAudio : bool) : A :=
  if removeAudio then ofZ 0
  else if optimizeAudio then ofZ 96
  else ofZ 128.

(** The output resolution the estimate counts (the block of
    [estimateQuality] that calls [getTargetDimensions]). *)
Definition estimateOutputSize
    (inputWidth inputHeight : option A) (outputResolution : OutputResolution)
  : A * A :=
  match bothTruthy inputWidth inputHeight with
  | Some (w, h) =>
      match getTargetDimensions outputResolution w h with
      | Some dimensions => (width dimensions, height dimensions)
      | None => (w, h)
      end
  | None => (ofZ 1920, ofZ 1080)
  end.

(** The five bands of [estimateQuality]: score, level and quality loss
    before clamping and rounding. *)
Definition qualityBands (bpp : A) : A * QualityLevel * A :=
  if bpp >=? dec 15 100 then
    (ofZ 90 + jmin (ofZ 10) ((bpp - dec 15 100) * ofZ 100),
     Excellent,
     jmax (ofZ 0) (ofZ 5 - (bpp - dec 15 100) * ofZ 20))
  else if bpp >=? dec 10 100 then
    (ofZ 70 + ((bpp - dec 10 100) / dec 5 100) * ofZ 20,
     Good,
     ofZ 10 + ((dec 15 100 - bpp) / dec 5 100) * ofZ 10)
  else if bpp >=? dec 6 100 then
    (ofZ 50 + ((bpp - dec 6 100) / dec 4 100) * ofZ 20,
     Fair,
     ofZ 25 + ((dec 10 100 - bpp) / dec 4 100) * ofZ 15)
  else if bpp >=? dec 3 100 then
    (ofZ 30 + ((bpp - dec 3 100) / dec 3 100) * ofZ 20,
     Poor,
     ofZ 45 + ((dec 6 100 - bpp) / dec 3 100) * ofZ 20)
  else
    (jmax (ofZ 0) (bpp / dec 3 100 * ofZ 30),
     VeryPoor,
     ofZ 70 + ((dec 3 100 - bpp) / dec 3 100) * ofZ 25).

(** [Math.max(0, Math.min(100, Math.round(x)))] *)
Definition clampPercent (x : A) : A :=
  jmax (ofZ 0) (jmin (ofZ 100) (jround x)).

Definition estimateQuality
    (targetSizeMB durationSeconds : A) (inputWidth inputHeight : option A)
    (removeAudio optimizeAudio : bool) (outputResolution : OutputResolution)
  : result BitrateError QualityEstimate :=
  let audioBitrateKbps := audioBitrateKbpsOf removeAudio optimizeAudio in
  match calculateBitrate targetSizeMB durationSeconds audioBitrateKbps with
  | Err e => Err e
  | Ok videoBitrate =>
      let '(outputWidth, outputHeight) :=
        estimateOutputSize inputWidth inputHeight outputResolution in
      let pixels := outputWidth * outputHeight in
      let fps := ofZ 30 in
      let bpp := (videoBitrate * ofZ 1000) / (pixels * fps) in
      let '(score0, level0, loss0) := qualityBands bpp in
      Ok {| score := clampPercent score0;
            level := level0;
            bitratePerPixel := bpp;
            estimatedQualityLoss := clampPercent loss0 |}
  end.

End Estimation.

(** ** The specification's wording, for comparison

    Definitions that follow the specification's text rather than the
    source; the theorems compare them with the functions above. *)

Definition spec_clamp (x lo hi : Q) : Q := Qmin' hi (Qmax' lo x).

(** The five steps of the specification's Bitrate Calculator, in bits per
    second. *)
Definition spec_computeVideoBitrate
    (targetSizeMB durationSeconds audioBitrateBps : Q) : Q :=
  let bufferMB := spec_clamp (targetSizeMB * (2 # 100)) (244140625 # 1000000000) 2 in
  let adjustedTargetMB := Qmax' (1 # 10) (targetSizeMB - bufferMB) in
  let targetBits := adjustedTargetMB * 8192 * 1000 in
  let totalBitrateBps := targetBits / durationSeconds in
  (totalBitrateBps - audioBitrateBps) * (95 # 100).

(** The same five steps carried out in kilobits per second, in any number
    model: step 3 multiplies by 8192 alone and the audio bitrate is given
    in kbps. *)
Definition spec_videoBitrateKbps {A} `{JsNum A}
    (targetSizeMB durationSeconds audioBitrateKbps : A) : A :=
  let clamp x lo hi := jmin hi (jmax lo x) in
  let bufferMB :=
    clamp (jmul targetSizeMB (dec 2 100)) (dec 244140625 1000000000) (ofZ 2) in
  let adjustedTargetMB := jmax (dec 1 10) (jsub targetSizeMB bufferMB) in
  let targetKbits := jmul adjustedTargetMB (ofZ 8192) in
  let totalBitrateKbps := jdiv targetKbits durationSeconds in
  jmul (jsub totalBitrateKbps audioBitrateKbps) (dec 95 100).

(** Whether, at whole numbers, the binary64 result of the calculator is
    the exact result or one less. *)
Definition exactOrOneLess (targetSizeMB durationSeconds audioBitrateKbps : Z)
  : bool :=
  match calculateBitrate (A:=Q) (inject_Z targetSizeMB) (inject_Z durationSeconds)
          (inject_Z audioBitrateKbps),
        calculateBitrate (A:=float) (ofZ targetSizeMB) (ofZ durationSeconds)
          (ofZ audioBitrateKbps) with
  | Ok exact, Ok computed =>
      PrimFloat.eqb computed (ofZ (Qfloor exact))
      || PrimFloat.eqb computed (ofZ (Qfloor exact - 1))
  | _, _ => false
  end.

(** "The input fits within the cap's box on both axes"; ['original'] has no
    box. *)
Definition fitsWithin (cap : OutputResolution) (w h : Z) : Prop :=
  match RESOLUTION_PRESETS (A:=Q) cap with
  | Some box => inject_Z w <= width box /\ inject_Z h <= height box
  | None => True
  end.

(** [estimateQuality(sizeForQuality(score, d, w, h), d, w, h, full,
    original).score] *)
Definition roundTripScore {A} `{JsNum A}
    (qualityScore durationSeconds : A) (inputWidth inputHeight : option A)
  : option A :=
  let size :=
    calculateTargetSizeForQuality qualityScore durationSeconds inputWidth inputHeight in
  match estimateQuality size durationSeconds inputWidth inputHeight
          false false Original with
  | Ok q => Some (score q)
  | Err _ => None
  end.

(** "Equals [score] to within 2". *)
Definition withinTwo {A} `{JsNum A} (qualityScore : A) (estimated : option A) : bool :=
  match estimated with
  | Some v => jleb (jsub qualityScore (ofZ 2)) v && jleb v (jadd qualityScore (ofZ 2))
  | None => false
  end.

(** The round trip at whole numbers: a score, a duration in seconds and
    optional input dimensions in pixels. *)
Definition roundTripHolds {A} `{JsNum A}
    (qualityScore durationSeconds : Z) (inputWidth inputHeight : option Z) : bool :=
  withinTwo (ofZ qualityScore)
    (roundTripScore (ofZ qualityScore) (ofZ durationSeconds)
       (option_map ofZ inputWidth) (option_map ofZ inputHeight)).

(** The size the resolver aims at for [v] kbps of video and 128 kbps of
    audio, before rounding up to 0.1 MB: [(v + 128) / 0.95 * d / 8192]. *)
Definition exactSizeMB (v d : Q) : Q := (v + 128) * d * (100 # 778240).

(** ** Strings

    The handful of [String.prototype] operations and regular expressions
    the orchestrator applies to log lines and error texts. Strings are
    byte strings; case folding and the character classes [\s] and [\d] are
    the ASCII ones. *)

Module JsString.
Local Open Scope Z_scope.
Local Open Scope string_scope.

(** [stripPrefix p s]: the rest of [s] after its prefix [p], if any. *)
Fixpoint stripPrefix (p s : string) : option string :=
  match p, s with
  | EmptyString, _ => Some s
  | String a p', String b s' =>
      if Ascii.eqb a b then stripPrefix p' s' else None
  | String _ _, EmptyString => None
  end.

(** [s.includes(needle)] *)
Fixpoint includes (s needle : string) : bool :=
  match stripPrefix needle s with
  | Some _ => true
  | None =>
      match s with
      | EmptyString => false
      | String _ s' => includes s' needle
      end
  end.

Definition lowerAscii (c : ascii) : ascii :=
  let n := nat_of_ascii c in
  if (65 <=? n)%nat && (n <=? 90)%nat then ascii_of_nat (n + 32) else c.

Fixpoint toLowerCase (s : string) : string :=
  match s with
  | EmptyString => EmptyString
  | String c s' => String (lowerAscii c) (toLowerCase s')
  end.

Definition isDigit (c : ascii) : bool :=
  let n := nat_of_ascii c in (48 <=? n)%nat && (n <=? 57)%nat.

Definition isSpace (c : ascii) : bool :=
  let n := nat_of_ascii c in
  ((9 <=? n)%nat && (n <=? 13)%nat) || (n =? 32)%nat.

Fixpoint dropWhile (p : ascii -> bool) (s : string) : string :=
  match s with
  | EmptyString => EmptyString
  | String c s' => if p c then dropWhile p s' else s
  end.

Definition digitValue (c : ascii) : Z := Z.of_nat (nat_of_ascii c) - 48.

(** [parseInt] of the longest run of digits that [s] starts with, together
    with the number of digits read. *)
Fixpoint leadingDigits (acc : Z) (n : nat) (s : string) : Z * nat * string :=
  match s with
  | String c s' =>
      if isDigit c then leadingDigits (10 * acc + digitValue c) (S n) s'
      else (acc, n, s)
  | EmptyString => (acc, n, s)
  end.

(** Exactly two digits, as [(\d{2})]. *)
Definition twoDigits (s : string) : option (Z * string) :=
  match s with
  | String a (String b rest) =>
      if isDigit a && isDigit b
      then Some (10 * digitValue a + digitValue b, rest)
      else None
  | _ => None
  end.

(** [message.match(/frame=\s*(\d+)/)]: the captured number of the leftmost
    match. *)
Definition frameAt (s : string) : option Z :=
  match stripPrefix "frame=" s with
  | Some r =>
      match leadingDigits 0 0 (dropWhile isSpace r) with
      | (_, O, _) => None
      | (v, S _, _) => Some v
      end
  | None => None
  end.

Fixpoint matchFrame (s : string) : option Z :=
  match frameAt s with
  | Some v => Some v
  | None =>
      match s with
      | EmptyString => None
      | String _ s' => matchFrame s'
      end
  end.

(** [message.match(/time=(\d{2}):(\d{2}):(\d{2})\.(\d{2})/)]: hours,
    minutes, seconds and centiseconds of the leftmost match. *)
Definition timeAt (s : string) : option (Z * Z * Z * Z) :=
  match stripPrefix "time=" s with
  | None => None
  | Some r0 =>
      match twoDigits r0 with
      | None => None
      | Some (hh, r1) =>
      match stripPrefix ":" r1 with
      | None => None
      | Some r2 =>
      match twoDigits r2 with
      | None => None
      | Some (mm, r3) =>
      match stripPrefix ":" r3 with
      | None => None
      | Some r4 =>
      match twoDigits r4 with
      | None => None
      | Some (ss, r5) =>
      match stripPrefix "." r5 with
      | None => None
      | Some r6 =>
      match twoDigits r6 with
      | None => None
      | Some (cs, _) => Some (hh, mm, ss, cs)
      end end end end end end end
  end.

Fixpoint matchTime (s : string) : option (Z * Z * Z * Z) :=
  match timeAt s with
  | Some v => Some v
  | None =>
      match s with
      | EmptyString => None
      | String _ s' => matchTime s'
      end
  end.

(** [(\d{2,3})]: two digits, and a third when one follows; the value and
    the number of digits matched. *)
Definition twoOrThreeDigits (s : string) : option (Z * nat * string) :=
  match twoDigits s with
  | None => None
  | Some (v, rest) =>
      match rest with
      | String c rest' =>
          if isDigit c then Some (10 * v + digitValue c, 3%nat, rest')
          else Some (v, 2%nat, rest)
      | EmptyString => Some (v, 2%nat, rest)
      end
  end.

(** [text.match(/Duration:\s*(\d{2}):(\d{2}):(\d{2})[\.:](\d{2,3})/)]:
    hours, minutes, seconds, the last group and its number of digits, of
    the leftmost match. *)
Definition durationAt (s : string) : option (Z * Z * Z * Z * nat) :=
  match stripPrefix "Duration:" s with
  | None => None
  | Some r0 =>
      match twoDigits (dropWhile isSpace r0) with
      | None => None
      | Some (hh, r1) =>
      match stripPrefix ":" r1 with
      | None => None
      | Some r2 =>
      match twoDigits r2 with
      | None => None
      | Some (mm, r3) =>
      match stripPrefix ":" r3 with
      | None => None
      | Some r4 =>
      match twoDigits r4 with
      | None => None
      | Some (ss, r5) =>
      match r5 with
      | String c r6 =>
          if Ascii.eqb c "."%char || Ascii.eqb c ":"%char then
            match twoOrThreeDigits r6 with
            | None => None
            | Some (ms, digits, _) => Some (hh, mm, ss, ms, digits)
            end
          else None
      | EmptyString => None
      end end end end end end
  end.

Fixpoint matchDuration (s : string) : option (Z * Z * Z * Z * nat) :=
  match durationAt s with
  | Some v => Some v
  | None =>
      match s with
      | EmptyString => None
      | String _ s' => matchDuration s'
      end
  end.

(** Decimal rendering of an integer, as a template literal prints it. *)
Definition ofInteger (z : Z) : string :=
  DecimalString.NilZero.string_of_int (Z.to_int z).

(** [parts.join(sep)] *)
Fixpoint join (sep : string) (parts : list string) : string :=
  match parts with
  | [] => ""
  | [p] => p
  | p :: rest => p ++ sep ++ join sep rest
  end.

(** Text after the last ['.'] of [s] ([s.split('.').pop()]). *)
Fixpoint lastSegment (acc s : string) : string :=
  match s with
  | EmptyString => acc
  | String c s' =>
      if Ascii.eqb c "."%char then lastSegment "" s'
      else lastSegment (acc ++ String c "") s'
  end.

End JsString.

(** Vocabulary for statements about substring search. *)

(** [c] occurs in [s]. *)
Fixpoint occurs (c : ascii) (s : string) : bool :=
  match s with
  | EmptyString => false
  | String x s' => Ascii.eqb c x || occurs c s'
  end.

Fixpoint allChars (p : ascii -> bool) (s : string) : bool :=
  match s with
  | EmptyString => true
  | String x s' => p x && allChars p s'
  end.

(** The characters of a printed integer. *)
Definition numeric (c : ascii) : bool :=
  JsString.isDigit c || Ascii.eqb c "-"%char.

(** [s] starts with [n]. *)
Definition startsWith (s n : string) : bool :=
  match JsString.stripPrefix n s with Some _ => true | None => false end.

(** ** The software transcoder ([transcode] of [useTranscoder])

    The external collaborators (the browser's video element, the FFmpeg
    engine, the clock) are an environment: what loading the file's
    metadata gives, what the engine logs and throws during the duration
    probe, the sequence of engine events of the encode with the
    [Date.now()] at which each is delivered, and what reading the output
    file gives. Console output is left out. *)

Record File : Type := {
  fileSize : Z;
  fileType : string;
  fileName : string
}.

(** A value thrown into a [catch]: an [Error] object or any other value
    (given by its [String(...)] text). *)
Inductive Thrown : Type :=
| ThrownError (message : string)
| ThrownValue (text : string).

Definition stringOfThrown (e : Thrown) : string :=
  match e with
  | ThrownError EmptyString => "Error"
  | ThrownError m => "Error: " ++ m
  | ThrownValue t => t
  end.

(** [e instanceof Error ? e.message : String(e)] *)
Definition messageOfThrown (e : Thrown) : string :=
  match e with
  | ThrownError m => m
  | ThrownValue t => t
  end.

(** Events delivered while [ffmpeg.exec] runs. *)
Inductive EngineEvent : Type :=
| LogLine (now : Z) (message : string)
| IntervalTick (now : Z)
| ExecResolved
| ExecRejected (e : Thrown).

Inductive ExecSettlement : Type :=
| Resolved
| Rejected (e : Thrown)
| Unsettled.

Definition STALL_THRESHOLD : Z := 3 * 60 * 1000.

(** Text of the error the liveness poll rejects the encode with: the
    template's text after the number of minutes, and the whole message. *)
Definition stallAdvice : string :=
  " minutes." ++ "

" ++ "This usually indicates:
" ++ "   • Out of memory (OOM) - browser ran out of RAM
" ++ "   • Video too large/high resolution for browser processing
" ++ "   • Encoding process hung

" ++ "💡 Solutions:
" ++ "   1. Try a smaller video file or shorter clip
" ++ "   2. Use desktop tools: HandBrake (free) or FFmpeg CLI
" ++ "   3. Pre-downscale the video resolution before compressing
" ++ "   4. Close other browser tabs/apps to free up memory

" ++ "Browser-based encoding has memory limits (~2-4GB) that large/high-resolution videos can exceed.".

Definition stallMessage (stalledMinutes : Z) : string :=
  "FFmpeg encoding stalled: No progress detected for "
  ++ JsString.ofInteger stalledMinutes ++ stallAdvice.

Section SoftwareTranscoder.
Context {A : Type} `{JsNum A}.
(** [Number.prototype.toFixed(1)] of the runtime. *)
Variable toFixed1 : A -> string.
Local Open Scope string_scope.
Local Open Scope js_scope.

Record Request : Type := {
  reqFile : File;
  reqTargetSizeMB : A;
  reqRemoveAudio : bool;
  reqOptimizeAudio : bool;
  reqOutputResolution : OutputResolution;
  reqInputWidth : option A;
  reqInputHeight : option A
}.

(** Why [transcode] stored an error and returned [null], by the [throw]
    (or early [return]) it comes from. *)
Inductive TranscodeFailure : Type :=
| FfmpegNotLoaded
| FfmpegNotReady
| DurationUnavailable (reason : string)
| BitrateRejected (e : BitrateError)
| TargetTooSmall (targetSizeMB duration targetBitrate minSize recommendedSize : A)
| WasmSignatureMismatch
| OutOfMemory
| EncodingFailed (errorMsg : string) (details : list string)
| OutputUnreadableAfterCompletion
| OutputUnreadable (reason : string)
| OutputEmpty
| OutputTruncated (outputSizeMB : A)
| OutputTooSmall (outputSizeMB : A).

(** One element of [ffmpegArgs]. *)
Inductive FfmpegArg : Type :=
| Lit (s : string)
| Kbps (n : A)              (* `${n}k` *)
| ScaleTo (w h : A)         (* `scale=${w}:${h}:force_original_aspect_ratio=decrease:flags=fast_bilinear` *)
| ScaleKeep.                (* 'scale=iw:ih:flags=fast_bilinear' *)

Inductive EngineCall : Type :=
| WriteFile (name : string) (bytes : Z)
| ReadFile (name : string)
| Exec (args : list FfmpegArg)
| DeleteFile (name : string).

(** The mutable locals of one encode. [hookProgress] is the hook's
    progress state as last set by [setProgress]. *)
Record EncodeJob : Type := {
  encodingErrors : list string;
  oomDetected : bool;
  abortedDetected : bool;
  frameCount : A;
  totalFramesEstimate : A;
  encodingCompleted : bool;
  lastProgressUpdate : Z;
  lastProgressValue : A;
  encodingTimedOut : bool;
  hookProgress : A
}.

Definition newJob (now : Z) : EncodeJob :=
  {| encodingErrors := [];
     oomDetected := false;
     abortedDetected := false;
     frameCount := ofZ 0;
     totalFramesEstimate := ofZ 0;
     encodingCompleted := false;
     lastProgressUpdate := now;
     lastProgressValue := ofZ 0;
     encodingTimedOut := false;
     hookProgress := ofZ 0 |}.

Definition markCompleted (message : string) (j : EncodeJob) : EncodeJob :=
  if JsString.includes message "video:" && JsString.includes message "audio:"
     && JsString.includes message "kB"
  then {| encodingErrors := encodingErrors j;
          oomDetected := oomDetected j;
          abortedDetected := abortedDetected j;
          frameCount := frameCount j;
          totalFramesEstimate := totalFramesEstimate j;
          encodingCompleted := true;
          lastProgressUpdate := lastProgressUpdate j;
          lastProgressValue := lastProgressValue j;
          encodingTimedOut := encodingTimedOut j;
          hookProgress := ofZ 1 |}
  else j.

Definition recordFailure (oom aborted : bool) (message : string) (j : EncodeJob)
  : EncodeJob :=
  {| encodingErrors := (encodingErrors j ++ [message])%list;
     oomDetected := oomDetected j || oom;
     abortedDetected := abortedDetected j || aborted;
     frameCount := frameCount j;
     totalFramesEstimate := totalFramesEstimate j;
     encodingCompleted := encodingCompleted j;
     lastProgressUpdate := lastProgressUpdate j;
     lastProgressValue := lastProgressValue j;
     encodingTimedOut := encodingTimedOut j;
     hookProgress := hookProgress j |}.

Definition detectFailure (message : string) (j : EncodeJob) : EncodeJob :=
  let lowerMsg := JsString.toLowerCase message in
  if JsString.includes lowerMsg "aborted(oom)"
     || JsString.includes lowerMsg "out of memory"
  then recordFailure true false message j
  else if JsString.includes lowerMsg "aborted" && negb (encodingCompleted j)
  then recordFailure false true message j
  else if (JsString.includes lowerMsg "error" || JsString.includes lowerMsg "failed")
          && negb (JsString.includes lowerMsg "non-critical")
  then recordFailure false false message j
  else j.

Definition setFrames (count total : A) (j : EncodeJob) : EncodeJob :=
  {| encodingErrors := encodingErrors j;
     oomDetected := oomDetected j;
     abortedDetected := abortedDetected j;
     frameCount := count;
     totalFramesEstimate := total;
     encodingCompleted := encodingCompleted j;
     lastProgressUpdate := lastProgressUpdate j;
     lastProgressValue := lastProgressValue j;
     encodingTimedOut := encodingTimedOut j;
     hookProgress := hookProgress j |}.

(** [setProgress(p); lastProgressUpdate = Date.now(); lastProgressValue = p] *)
Definition reportProgress (now : Z) (p : A) (j : EncodeJob) : EncodeJob :=
  {| encodingErrors := encodingErrors j;
     oomDetected := oomDetected j;
     abortedDetected := abortedDetected j;
     frameCount := frameCount j;
     totalFramesEstimate := totalFramesEstimate j;
     encodingCompleted := encodingCompleted j;
     lastProgressUpdate := now;
     lastProgressValue := p;
     encodingTimedOut := encodingTimedOut j;
     hookProgress := p |}.

(** [lastProgressUpdate = Date.now()] alone. *)
Definition touchProgress (now : Z) (j : EncodeJob) : EncodeJob :=
  {| encodingErrors := encodingErrors j;
     oomDetected := oomDetected j;
     abortedDetected := abortedDetected j;
     frameCount := frameCount j;
     totalFramesEstimate := totalFramesEstimate j;
     encodingCompleted := encodingCompleted j;
     lastProgressUpdate := now;
     lastProgressValue := lastProgressValue j;
     encodingTimedOut := encodingTimedOut j;
     hookProgress := hookProgress j |}.

Definition frameProgress (duration : A) (now : Z) (message : string)
    (j : EncodeJob) : EncodeJob :=
  match JsString.matchFrame message with
  | None => j
  | Some n =>
      let newFrameCount := ofZ n in
      if newFrameCount >? frameCount j then
        let total :=
          if truthy duration && negb (truthy (totalFramesEstimate j))
          then jfloor (duration * ofZ 60)
          else totalFramesEstimate j in
        let j1 := setFrames newFrameCount total j in
        if total >? ofZ 0 then
          reportProgress now (jmin (dec 99 100) (newFrameCount / total)) j1
        else touchProgress now j1
      else j
  end.

Definition timeProgress (duration : A) (now : Z) (message : string)
    (j : EncodeJob) : EncodeJob :=
  match JsString.matchTime message with
  | Some (hours, minutes, seconds, centiseconds) =>
      if truthy duration then
        let currentTime :=
          ofZ hours * ofZ 3600 + ofZ minutes * ofZ 60 + ofZ seconds
          + ofZ centiseconds / ofZ 100 in
        if (currentTime >? ofZ 0) && (duration >? ofZ 0)
        then reportProgress now (jmin (dec 99 100) (currentTime / duration)) j
        else j
      else j
  | None => j
  end.

(** The temporary ['log'] listener. *)
Definition errorHandler (duration : A) (now : Z) (message : string)
    (j : EncodeJob) : EncodeJob :=
  timeProgress duration now message
    (frameProgress duration now message
       (detectFailure message (markCompleted message j))).

Definition setTimedOut (j : EncodeJob) : EncodeJob :=
  {| encodingErrors := encodingErrors j;
     oomDetected := oomDetected j;
     abortedDetected := abortedDetected j;
     frameCount := frameCount j;
     totalFramesEstimate := totalFramesEstimate j;
     encodingCompleted := encodingCompleted j;
     lastProgressUpdate := lastProgressUpdate j;
     lastProgressValue := lastProgressValue j;
     encodingTimedOut := true;
     hookProgress := hookProgress j |}.

(** One run of the 30-second liveness poll; a [Some] is the error it
    rejects the encode with ([stallReject] is stored when the wrapper
    promise is created, before any event is delivered).
    [Math.round(t / 60000)] is computed on integer milliseconds. *)
Definition livenessPoll (now : Z) (j : EncodeJob) : EncodeJob * option Thrown :=
  let timeSinceLastProgress := (now - lastProgressUpdate j)%Z in
  let progressStalled := (STALL_THRESHOLD <? timeSinceLastProgress)%Z in
  if progressStalled && negb (encodingCompleted j) && negb (encodingTimedOut j)
  then
    let stalledMinutes := ((timeSinceLastProgress + 30000) / 60000)%Z in
    (setTimedOut j, Some (ThrownError (stallMessage stalledMinutes)))
  else (j, None).

(** [await execWithStallDetection] over the events delivered meanwhile:
    the first settlement wins. *)
Fixpoint awaitExec (duration : A) (events : list EngineEvent) (j : EncodeJob)
  : EncodeJob * ExecSettlement :=
  match events with
  | [] => (j, Unsettled)
  | LogLine now message :: rest =>
      awaitExec duration rest (errorHandler duration now message j)
  | IntervalTick now :: rest =>
      match livenessPoll now j with
      | (j', Some e) => (j', Rejected e)
      | (j', None) => awaitExec duration rest j'
      end
  | ExecResolved :: rest =>
      if encodingTimedOut j then awaitExec duration rest j else (j, Resolved)
  | ExecRejected e :: _ => (j, Rejected e)
  end.

(** *** After the encode settles *)

(** [progress] below is the hook's progress state as the [transcode]
    closure holds it. *)
Definition encodingLikelyCompleted (progress : A) (j : EncodeJob) : bool :=
  encodingCompleted j
  || (progress >=? dec 95 100)
  || ((frameCount j >? ofZ 0)
      && (frameCount j >=? totalFramesEstimate j * dec 9 10)).

Definition fileSizeMB (file : File) : A :=
  ofZ (fileSize file) / ofZ 1024 / ofZ 1024.

(** Text of the error thrown after a resolved encode whose log showed an
    abort or an out-of-memory condition without completion. *)
Definition abortMessage (file : File) (duration : A) : string :=
  let durationMinutes :=
    if truthy duration then toFixed1 (duration / ofZ 60) else "unknown" in
  let durationSeconds := if truthy duration then duration else ofZ 0 in
  let guidance1 :=
    if durationSeconds >? ofZ 300
    then "Long duration videos require more memory. " else "" in
  let guidance2 :=
    if fileSizeMB file >? ofZ 200
    then "Large file size increases memory needs. " else "" in
  "Out of Memory Error: Browser-based processing cannot handle this video.

" ++ "Your video (" ++ toFixed1 (fileSizeMB file) ++ "MB, "
  ++ durationMinutes ++ " minutes) "
  ++ "exceeds FFmpeg.wasm memory limits (~2-4GB total heap). "
  ++ guidance1 ++ guidance2
  ++ "High resolution videos require significant memory during encoding.

" ++ "💡 Recommended Solutions:
" ++ "   1. Close other browser tabs/apps to free up memory
" ++ "   2. Try again - browser memory can vary
" ++ "   3. Use desktop tools: HandBrake (free) or FFmpeg CLI for more reliable processing
" ++ "   4. Pre-downscale: Use HandBrake to reduce resolution first, then compress here".

(** The checks that follow a resolved encode, inside the same [try]: a
    [Some] is thrown to the [catch] below. *)
Definition completionCheck (file : File) (duration progress : A) (j : EncodeJob)
  : option Thrown :=
  if (oomDetected j || abortedDetected j)
     && negb (encodingLikelyCompleted progress j)
  then Some (ThrownError (abortMessage file duration))
  else None.

(** Whether a resolved encode went on with the cleanup warning. *)
Definition completedWithWarning (progress : A) (j : EncodeJob) : bool :=
  (oomDetected j || abortedDetected j) && encodingLikelyCompleted progress j.

Definition errorMsgOf (e : Thrown) : string :=
  match e with
  | ThrownError EmptyString => "Error"
  | ThrownError m => m
  | ThrownValue t => t
  end.

(** [catch (execError)]: what is re-thrown to the caller. *)
Definition classifyExecError (j : EncodeJob) (execError : Thrown)
  : TranscodeFailure :=
  let errorLower := JsString.toLowerCase (stringOfThrown execError) in
  if JsString.includes errorLower "signature mismatch"
     || JsString.includes errorLower "indirect call"
  then WasmSignatureMismatch
  else if JsString.includes errorLower "oom"
          || JsString.includes errorLower "out of memory"
          || JsString.includes errorLower "aborted"
  then OutOfMemory
  else EncodingFailed (errorMsgOf execError) (firstn 3 (encodingErrors j)).

(** *** Output validation *)

(** [envOutput]: the byte length of the file read back, or the read
    error. *)
Definition validateOutput (progress : A) (output : result string Z)
  : result TranscodeFailure Z :=
  match output with
  | Err readError =>
      if progress >=? dec 95 100 then Err OutputUnreadableAfterCompletion
      else Err (OutputUnreadable readError)
  | Ok length =>
      if (length =? 0)%Z then Err OutputEmpty
      else
        let outputSizeMB := ofZ length / ofZ 1024 / ofZ 1024 in
        if outputSizeMB <? ofZ 1 then
          if progress >=? dec 95 100 then Err (OutputTruncated outputSizeMB)
          else Err (OutputTooSmall outputSizeMB)
        else Ok length
  end.

(** *** The hook's state, as its closures read it *)

(** What the [transcode] and [getVideoDuration] closures read of their
    hook: [ffmpegRef.current] is a ref, read when the closure runs;
    [isLoaded] and [progress] are the state of the render that created the
    closure. *)
Record HookState : Type := {
  ffmpegPresent : bool;     (* ffmpegRef.current *)
  isLoaded : bool;
  progress : A
}.

(** The first render: [useRef(null)], [useState(false)], [useState(0)]. *)
Definition initialHook : HookState :=
  {| ffmpegPresent := false; isLoaded := false; progress := ofZ 0 |}.

(** What happens to the hook between two calls of its closures.
    [transcode] is memoized by [useCallback] on [isLoaded, calculateBitrate,
    getVideoDuration], and [getVideoDuration] on [isLoaded]: both are
    re-created only by a render in which [isLoaded] has changed, and hold
    the [progress] of that render. *)
Inductive HookEvent : Type :=
| InstanceCreated            (* load(): ffmpegRef.current = new FFmpeg() *)
| LoadCompleted              (* load(): setIsLoaded(true); setProgress(0) *)
| ProgressSet (p : A).       (* any other setProgress(p) *)

Definition afterEvent (h : HookState) (e : HookEvent) : HookState :=
  match e with
  | InstanceCreated =>
      {| ffmpegPresent := true; isLoaded := isLoaded h; progress := progress h |}
  | LoadCompleted =>
      {| ffmpegPresent := ffmpegPresent h;
         isLoaded := true;
         progress := if isLoaded h then progress h else ofZ 0 |}
  | ProgressSet _ => h
  end.

(** The states the closures can be called in. *)
Definition HookReachable (h : HookState) : Prop :=
  exists events : list HookEvent, h = fold_left afterEvent events initialHook.

(** *** Duration of the input ([getVideoDuration]) *)

(** [video.duration] when the metadata has loaded: NaN, Infinity or a
    number. *)
Inductive MediaDuration : Type :=
| DurationNaN
| DurationInfinity
| DurationFinite (seconds : A).

(** How the promise around the hidden [video] element settles: the first
    of its metadata event, its error event ([video.error], or [null]), the
    10-second timer, and an exception of the executor itself. *)
Inductive MetadataOutcome : Type :=
| LoadedMetadata (duration : MediaDuration)
| VideoError (error : option (Z * string))
| MetadataTimeout
| MetadataThrew (e : Thrown).

Definition browserDuration (metadata : MetadataOutcome) : result Thrown A :=
  match metadata with
  | LoadedMetadata (DurationFinite duration) =>
      if truthy duration && jsFinite duration && (duration >? ofZ 0)
      then Ok duration
      else Err (ThrownError "Invalid video duration received")
  | LoadedMetadata _ => Err (ThrownError "Invalid video duration received")
  | VideoError error =>
      let errorCode :=
        match error with
        | Some (code, _) => JsString.ofInteger code
        | None => "undefined"
        end in
      let errorMsg :=
        match error with
        | Some (_, String c m) => String c m
        | _ => "Unknown video error"
        end in
      Err (ThrownError
             ("Browser could not decode video: " ++ errorMsg
              ++ " (Code: " ++ errorCode ++ ")"))
  | MetadataTimeout => Err (ThrownError "Timeout waiting for video metadata (10s)")
  | MetadataThrew e => Err e
  end.

Definition probeFileName : string := "probe-input.mp4".

Definition probeArgs : list FfmpegArg :=
  [Lit "-hide_banner"; Lit "-i"; Lit probeFileName; Lit "-t"; Lit "0.1";
   Lit "-f"; Lit "null"; Lit "-"].

(** The locals of the probe that its log listener updates.
    [extractedDuration] is [null] or a positive number. *)
Record ProbeLog : Type := {
  durationLog : string;
  extractedDuration : option A
}.

(** [hours * 3600 + minutes * 60 + seconds + milliseconds / msDivisor] *)
Definition durationOfMatch (m : Z * Z * Z * Z * nat) : A :=
  let '(hours, minutes, seconds, milliseconds, digits) := m in
  let msDivisor := if Nat.eqb digits 2 then ofZ 100 else ofZ 1000 in
  ofZ hours * ofZ 3600 + ofZ minutes * ofZ 60 + ofZ seconds
  + ofZ milliseconds / msDivisor.

Definition logHandler (st : ProbeLog) (message : string) : ProbeLog :=
  {| durationLog := durationLog st ++ message ++ String (ascii_of_nat 10) "";
     extractedDuration :=
       match extractedDuration st with
       | Some d => Some d
       | None =>
           match JsString.matchDuration message with
           | Some m =>
               let duration := durationOfMatch m in
               if duration >? ofZ 0 then Some duration else None
           | None => None
           end
       end |}.

(** What the probe meets: what [fetchFile] and [ffmpeg.writeFile] throw,
    the log messages delivered until the race between [ffmpeg.exec] and the
    5-second timer settles, and what the n-th [ffmpeg.deleteFile] throws. *)
Record ProbeEnv : Type := {
  probeFetch : option Thrown;
  probeWrite : option Thrown;
  probeMessages : list string;
  probeDelete : nat -> option Thrown
}.

Definition probeUnavailable : string :=
  "Could not determine video duration. Your browser cannot decode this video format. "
  ++ "Please try a video with H.264 codec (MP4 format recommended), or wait for FFmpeg to finish loading.".

Definition extractionFailed : string :=
  "Could not extract duration from video file. "
  ++ "The video format may not be supported, or the file may be corrupted. "
  ++ "Try converting your video to MP4 with H.264 codec first.".

(** The message of the error thrown by [catch (ffmpegError)]. *)
Definition probeFailure (browserError ffmpegError : Thrown) : string :=
  "Could not determine video duration. Browser error: "
  ++ messageOfThrown browserError ++ ". "
  ++ "FFmpeg probe error: " ++ messageOfThrown ffmpegError.

(** The fallback of [getVideoDuration]: the engine calls it makes, and
    the duration it returns or the message of the error it throws. *)
Definition probeDuration (file : File) (browserError : Thrown) (env : ProbeEnv)
  : list EngineCall * result string A :=
  let fail (calls : list EngineCall) (e : Thrown) :=
    (calls, Err (probeFailure browserError e)) in
  let delete := DeleteFile probeFileName in
  match probeFetch env with
  | Some e => fail [] e
  | None =>
  match probeWrite env with
  | Some e => fail [WriteFile probeFileName (fileSize file)] e
  | None =>
      let probed := [WriteFile probeFileName (fileSize file); Exec probeArgs] in
      let st :=
        fold_left logHandler (probeMessages env)
          {| durationLog := ""; extractedDuration := None |} in
      match extractedDuration st with
      | Some duration =>
          match probeDelete env 0%nat with
          | Some e => fail (probed ++ [delete])%list e
          | None => ((probed ++ [delete])%list, Ok duration)
          end
      | None =>
          match JsString.matchDuration (durationLog st) with
          | Some m =>
              let duration := durationOfMatch m in
              match probeDelete env 0%nat with
              | Some e => fail (probed ++ [delete])%list e
              | None =>
                  if duration >? ofZ 0
                  then ((probed ++ [delete])%list, Ok duration)
                  else
                    match probeDelete env 1%nat with
                    | Some e => fail (probed ++ [delete; delete])%list e
                    | None =>
                        fail (probed ++ [delete; delete])%list
                          (ThrownError extractionFailed)
                    end
              end
          | None =>
              match probeDelete env 0%nat with
              | Some e => fail (probed ++ [delete])%list e
              | None => fail (probed ++ [delete])%list (ThrownError extractionFailed)
              end
          end
      end
  end
  end.

Definition getVideoDuration (hook : HookState) (file : File)
    (metadata : MetadataOutcome) (probe : ProbeEnv)
  : list EngineCall * result string A :=
  match browserDuration metadata with
  | Ok duration => ([], Ok duration)
  | Err browserError =>
      if negb (ffmpegPresent hook) || negb (isLoaded hook)
      then ([], Err probeUnavailable)
      else probeDuration file browserError probe
  end.

(** The three engine calls of the probe, for statements about traces. *)
Definition probeCall (file : File) (c : EngineCall) : Prop :=
  c = WriteFile probeFileName (fileSize file)
  \/ c = Exec probeArgs
  \/ c = DeleteFile probeFileName.

(** *** [transcode] *)

Record FfmpegEnv : Type := {
  envMetadata : MetadataOutcome;     (* the hidden video element *)
  envProbe : ProbeEnv;               (* the FFmpeg probe, when it runs *)
  envMemberText : string -> string;  (* String(Object.prototype[key]) *)
  envStart : Z;                      (* Date.now() when the listener is installed *)
  envEvents : list EngineEvent;
  envOutput : result string Z        (* ffmpeg.readFile(outputFileName) *)
}.

(** [outcome]: [None] while the encode is still pending; [Err f] when
    [transcode] stored the error [f] and returned [null]; [Ok n] when it
    returned the URL of an [n]-byte blob. *)
Record TranscodeRun : Type := {
  engineCalls : list EngineCall;
  outcome : option (result TranscodeFailure Z);
  cleanupWarning : bool
}.

Definition failed (calls : list EngineCall) (f : TranscodeFailure) : TranscodeRun :=
  {| engineCalls := calls; outcome := Some (Err f); cleanupWarning := false |}.

(** The property names that every object literal inherits from
    [Object.prototype]. *)
Definition objectPrototypeKeys : list string :=
  ["constructor"; "__defineGetter__"; "__defineSetter__"; "hasOwnProperty";
   "__lookupGetter__"; "__lookupSetter__"; "isPrototypeOf";
   "propertyIsEnumerable"; "toString"; "valueOf"; "__proto__";
   "toLocaleString"].

(** What [getFileExtension] returns: a string, or the member of
    [Object.prototype] that [mimeToExt[file.type]] finds (a function, or
    the prototype itself: truthy, and not a string). *)
Inductive FileExtension : Type :=
| Extension (ext : string)
| InheritedMember (key : string).

Definition getFileExtension (file : File) : FileExtension :=
  let t := fileType file in
  if String.eqb t "video/mp4" then Extension "mp4"
  else if String.eqb t "video/quicktime" then Extension "mov"
  else if String.eqb t "video/x-msvideo" then Extension "avi"
  else if String.eqb t "video/x-matroska" then Extension "mkv"
  else if String.eqb t "video/webm" then Extension "webm"
  else if existsb (String.eqb t) objectPrototypeKeys then InheritedMember t
  else
    let filenameExt := JsString.toLowerCase (JsString.lastSegment "" (fileName file)) in
    if existsb (String.eqb filenameExt) ["mp4"; "mov"; "avi"; "mkv"; "webm"]
    then Extension filenameExt else Extension "mp4".

(** [`input.${inputExt}`] *)
Definition inputFileNameOf (env : FfmpegEnv) (file : File) : string :=
  "input."
  ++ match getFileExtension file with
     | Extension ext => ext
     | InheritedMember key => envMemberText env key
     end.

Definition audioArgs (removeAudio optimizeAudio : bool) : list FfmpegArg :=
  if removeAudio then [Lit "-an"]
  else if optimizeAudio
  then [Lit "-c:a"; Lit "aac"; Lit "-b:a"; Lit "96k"; Lit "-ac"; Lit "1"]
  else [Lit "-c:a"; Lit "aac"; Lit "-b:a"; Lit "128k"].

Definition buildFfmpegArgs (inputFileName outputFileName : string)
    (scaleFilter : FfmpegArg) (targetBitrate : A)
    (removeAudio optimizeAudio : bool) : list FfmpegArg :=
  let videoBitrateTarget := jround (targetBitrate * dec 96 100) in
  let maxrate := jround (targetBitrate * dec 10 10) in
  let bufsize := jround (targetBitrate * dec 12 10) in
  ([Lit "-i"; Lit inputFileName;
    Lit "-vf"; scaleFilter;
    Lit "-sws_flags"; Lit "lanczos";
    Lit "-c:v"; Lit "libx264";
    Lit "-b:v"; Kbps videoBitrateTarget;
    Lit "-maxrate"; Kbps maxrate;
    Lit "-bufsize"; Kbps bufsize;
    Lit "-minrate"; Kbps (jround (targetBitrate * dec 8 10));
    Lit "-preset"; Lit "veryfast";
    Lit "-profile:v"; Lit "high";
    Lit "-level"; Lit "4.0";
    Lit "-threads"; Lit "2";
    Lit "-tune"; Lit "film";
    Lit "-x264-params"; Lit "keyint=60:min-keyint=30:scenecut=40"]
   ++ audioArgs removeAudio optimizeAudio
   ++ [Lit "-movflags"; Lit "+faststart"; Lit "-y"; Lit outputFileName])%list.

Definition scaleFilterOf (outputResolution : OutputResolution)
    (inputWidth inputHeight : option A) : FfmpegArg :=
  let dimensions :=
    match bothTruthy inputWidth inputHeight with
    | Some (w, h) => getTargetDimensions outputResolution w h
    | None => None
    end in
  match dimensions with
  | Some d => ScaleTo (width d) (height d)
  | None => ScaleKeep
  end.

(** The error thrown for a bitrate under the 100 kbps floor. *)
Definition targetTooSmall (targetSizeMB duration targetBitrate : A)
  : TranscodeFailure :=
  match validateTargetSize duration targetSizeMB with
  | Ok validation =>
      TargetTooSmall targetSizeMB duration targetBitrate
        (minSizeMB validation) (recommendedSizeMB validation)
  | Err e => BitrateRejected e
  end.

Definition transcode (hook : HookState) (req : Request) (env : FfmpegEnv)
  : TranscodeRun :=
  if negb (ffmpegPresent hook) then failed [] FfmpegNotLoaded
  else if negb (isLoaded hook) then failed [] FfmpegNotReady
  else
    match getVideoDuration hook (reqFile req) (envMetadata env) (envProbe env) with
    | (probeCalls, Err reason) => failed probeCalls (DurationUnavailable reason)
    | (probeCalls, Ok duration) =>
    let audioBitrateKbps :=
      audioBitrateKbpsOf (reqRemoveAudio req) (reqOptimizeAudio req) in
    match calculateBitrate (reqTargetSizeMB req) duration audioBitrateKbps with
    | Err e => failed probeCalls (BitrateRejected e)
    | Ok targetBitrate =>
    if targetBitrate <? ofZ 100
    then failed probeCalls
           (targetTooSmall (reqTargetSizeMB req) duration targetBitrate)
    else
      let inputFileName := inputFileNameOf env (reqFile req) in
      let outputFileName := "output.mp4" in
      let scaleFilter :=
        scaleFilterOf (reqOutputResolution req)
          (reqInputWidth req) (reqInputHeight req) in
      let ffmpegArgs :=
        buildFfmpegArgs inputFileName outputFileName scaleFilter targetBitrate
          (reqRemoveAudio req) (reqOptimizeAudio req) in
      let calls :=
        (probeCalls
         ++ [WriteFile inputFileName (fileSize (reqFile req));
             ReadFile inputFileName;
             Exec ffmpegArgs])%list in
      match awaitExec duration (envEvents env) (newJob (envStart env)) with
      | (_, Unsettled) =>
          {| engineCalls := calls; outcome := None; cleanupWarning := false |}
      | (j, Rejected execError) => failed calls (classifyExecError j execError)
      | (j, Resolved) =>
          match completionCheck (reqFile req) duration (progress hook) j with
          | Some execError => failed calls (classifyExecError j execError)
          | None =>
              let calls' := (calls ++ [ReadFile outputFileName])%list in
              match validateOutput (progress hook) (envOutput env) with
              | Err f =>
                  {| engineCalls := calls';
                     outcome := Some (Err f);
                     cleanupWarning := completedWithWarning (progress hook) j |}
              | Ok bytes =>
                  {| engineCalls :=
                       (calls' ++ [DeleteFile inputFileName;
                                   DeleteFile outputFileName])%list;
                     outcome := Some (Ok bytes);
                     cleanupWarning := completedWithWarning (progress hook) j |}
              end
          end
      end
    end
    end.

End SoftwareTranscoder.

(** ** The hardware transcoder and the dual-engine policy
       ([useTranscoderPro], [transcodeWithMediaBunny]) *)

Inductive Engine : Type :=
| WebCodecs
| Wasm
| Loading.

Section HardwareTranscoder.
Context {A : Type} `{JsNum A}.
Variable toFixed1 : A -> string.
Local Open Scope string_scope.
Local Open Scope js_scope.

Definition HARDWARE_ENCODER_OVERSHOOT_FACTOR : A := dec 55 100.

Definition calculateVideoBitrate
    (targetSizeMB durationSeconds audioBitrateBps : A) : A :=
  let targetSizeBits := adjustedTargetSizeMB targetSizeMB * ofZ 8192 * ofZ 1000 in
  let totalBitrateBps := targetSizeBits / durationSeconds in
  let videoBitrateBps := (totalBitrateBps - audioBitrateBps) * dec 95 100 in
  jfloor (jmax (ofZ 100000) (videoBitrateBps * HARDWARE_ENCODER_OVERSHOOT_FACTOR)).

Definition getFallbackReasonFromDiscardedTracks (reasons : list string) : string :=
  let has r := existsb (String.eqb r) reasons in
  let parts :=
    ((if has "undecodable_source_codec"
      then ["Your video uses a codec that WebCodecs cannot decode (e.g. HEVC, certain VP9, or older formats)"]
      else [])
     ++ (if has "no_encodable_target_codec"
         then ["Your audio or video cannot be encoded to the target format with WebCodecs"]
         else [])
     ++ (if has "unknown_source_codec"
         then ["Your file uses an unknown or unsupported codec"]
         else []))%list in
  match parts with
  | [] => "WebCodecs cannot process this file."
  | _ => JsString.join ". " parts ++ ". Using FFmpeg fallback for compatibility."
  end.

(** What the MediaBunny library answers for one file. *)
Record MediaBunnyEnv : Type := {
  mbDuration : result Thrown A;               (* input.computeDuration() *)
  mbVideoTrack : option (Dimensions A);       (* displayWidth, displayHeight *)
  mbAudioTrack : bool;
  mbIsValid : bool;                           (* conversion.isValid *)
  mbDiscardedTracks : list string;            (* reasons of conversion.discardedTracks *)
  mbExecute : option Thrown;                  (* what conversion.execute() throws *)
  mbOutputBytes : Z                           (* buffer.byteLength, 0 without a buffer *)
}.

Inductive AudioConfig : Type :=
| AudioDiscard
| AudioEncode (bitrate : A) (numberOfChannels : Z).

(** The options given to [Conversion.init] that depend on the request. *)
Record ConversionConfig : Type := {
  videoWidth : A;
  videoHeight : A;
  videoBitrate : A;
  audioConfig : AudioConfig
}.

Record MediaBunnyRun : Type := {
  mbConfig : option ConversionConfig;   (* the conversion that was set up *)
  mbExecuted : bool;                    (* conversion.execute() was called *)
  mbResult : option Z;                  (* bytes of the blob, or null *)
  mbFallbackReason : option string;
  mbError : option string               (* last setError *)
}.

Definition mbCaught (config : option ConversionConfig) (executed : bool)
    (err : Thrown) : MediaBunnyRun :=
  {| mbConfig := config;
     mbExecuted := executed;
     mbResult := None;
     mbFallbackReason :=
       Some "WebCodecs encountered an error. Using FFmpeg fallback for compatibility.";
     mbError :=
       Some match err with
            | ThrownError m => m
            | ThrownValue _ => "Transcoding failed"
            end |}.

Definition transcodeWithMediaBunny (req : Request (A:=A)) (env : MediaBunnyEnv)
  : MediaBunnyRun :=
  match mbDuration env with
  | Err e => mbCaught None false e
  | Ok duration =>
  match mbVideoTrack env with
  | None => mbCaught None false (ThrownError "No video track found in file")
  | Some track =>
      let trackWidth := width track in
      let trackHeight := height track in
      let srcWidth :=
        match reqInputWidth req with Some w => w | None => trackWidth end in
      let srcHeight :=
        match reqInputHeight req with Some h => h | None => trackHeight end in
      let dimensions :=
        getTargetDimensions (reqOutputResolution req) srcWidth srcHeight in
      let outWidth :=
        match dimensions with Some d => width d | None => trackWidth end in
      let outHeight :=
        match dimensions with Some d => height d | None => trackHeight end in
      let audioBitrateBps :=
        if reqRemoveAudio req then ofZ 0
        else if reqOptimizeAudio req then ofZ 96000 else ofZ 128000 in
      let videoBitrateBps :=
        calculateVideoBitrate (reqTargetSizeMB req) duration audioBitrateBps in
      let config :=
        {| videoWidth := outWidth;
           videoHeight := outHeight;
           videoBitrate := videoBitrateBps;
           audioConfig :=
             if mbAudioTrack env && negb (reqRemoveAudio req)
             then AudioEncode audioBitrateBps
                    (if reqOptimizeAudio req then 1 else 2)%Z
             else AudioDiscard |} in
      if negb (mbIsValid env) then
        {| mbConfig := Some config;
           mbExecuted := false;
           mbResult := None;
           mbFallbackReason :=
             Some (getFallbackReasonFromDiscardedTracks (mbDiscardedTracks env));
           mbError := None |}
      else
        match mbExecute env with
        | Some e => mbCaught (Some config) true e
        | None =>
            if (mbOutputBytes env =? 0)%Z
            then mbCaught (Some config) true (ThrownError "Output file is empty")
            else
              let outputSizeMB := ofZ (mbOutputBytes env) / ofZ 1024 / ofZ 1024 in
              let inputSizeMB :=
                ofZ (fileSize (reqFile req)) / ofZ 1024 / ofZ 1024 in
              if outputSizeMB >=? inputSizeMB * dec 98 100 then
                {| mbConfig := Some config;
                   mbExecuted := true;
                   mbResult := None;
                   mbFallbackReason :=
                     Some "WebCodecs output matched input size—compression may not have applied. Using FFmpeg for reliable compression.";
                   mbError := None |}
              else
                {| mbConfig := Some config;
                   mbExecuted := true;
                   mbResult := Some (mbOutputBytes env);
                   mbFallbackReason := None;
                   mbError := None |}
        end
  end
  end.

(** *** [transcode] of [useTranscoderPro] *)

(** What the closure reads of the two hooks. *)
Record ProHook : Type := {
  engine : Engine;
  webCodecsAttempted : bool;               (* webCodecsAttempted.current *)
  wasmError : option string;               (* wasmTranscoder.error *)
  wasmHook : HookState (A:=A)
}.

Record ProEnv : Type := {
  webCodecsAvailable : bool;               (* isWebCodecsAvailable() *)
  wasmLoads : bool;                        (* wasmTranscoder.load() succeeds *)
  mediaBunny : MediaBunnyEnv;
  ffmpeg : FfmpegEnv (A:=A)
}.

Inductive ProStep : Type :=
| LoadWasm
| SubmitHardware (req : Request (A:=A)) (run : MediaBunnyRun)
| SetFallbackReason (reason : string)
| SetEngine (e : Engine)
| SubmitSoftware (req : Request (A:=A)) (run : TranscodeRun (A:=A)).

(** What the returned promise settles to: the URL of the hardware
    encoder's blob; [null] after a hardware failure without fallback;
    whatever [wasmTranscoder.transcode] settles to; or a rejection (a
    failed [wasmTranscoder.load()]). *)
Inductive ProOutcome : Type :=
| ProBlob (bytes : Z)
| ProNull
| ProDelegated (o : option (result (TranscodeFailure (A:=A)) Z))
| ProThrew.

(** The reason shown when the hardware transcoder gave none. *)
Definition DEFAULT_FALLBACK_REASON : string :=
"Your video uses codecs that WebCodecs cannot process. Using FFmpeg fallback for compatibility.".

(** [load()]: the steps it takes and whether it succeeds. *)
Definition load (hook : ProHook) (env : ProEnv) : list ProStep * bool :=
  if webCodecsAttempted hook then
    match engine hook with
    | Wasm => ([LoadWasm], wasmLoads env)
    | _ => ([], true)
    end
  else if webCodecsAvailable env then ([SetEngine WebCodecs], true)
  else ([SetEngine Wasm; LoadWasm], wasmLoads env).

(** A non-empty error string is truthy. *)
Definition hasError (e : option string) : bool :=
  match e with
  | Some EmptyString => false
  | Some _ => true
  | None => false
  end.

(** [wasmTranscoder.transcode(...)]; a successful load has set
    [ffmpegRef.current]. *)
Definition softwareTranscode (loaded : bool) (hook : ProHook) (env : ProEnv)
    (req : Request) : TranscodeRun :=
  let h := wasmHook hook in
  transcode toFixed1
    {| ffmpegPresent := ffmpegPresent h || loaded;
       isLoaded := isLoaded h;
       progress := progress h |}
    req (ffmpeg env).

Definition transcodePro (hook : ProHook) (env : ProEnv) (req : Request)
  : list ProStep * ProOutcome :=
  let '(loadSteps, loadOk) := load hook env in
  if negb loadOk then (loadSteps, ProThrew)
  else
    let loadedWasm := existsb (fun s => match s with LoadWasm => true | _ => false end)
                        loadSteps in
    let file := reqFile req in
    let targetSizeMB := reqTargetSizeMB req in
    let removeAudio := reqRemoveAudio req in
    let optimizeAudio := reqOptimizeAudio req in
    let resolution := reqOutputResolution req in
    let width := reqInputWidth req in
    let height := reqInputHeight req in
    let forwarded :=
      {| reqFile := file;
         reqTargetSizeMB := targetSizeMB;
         reqRemoveAudio := removeAudio;
         reqOptimizeAudio := optimizeAudio;
         reqOutputResolution := resolution;
         reqInputWidth := width;
         reqInputHeight := height |} in
    match engine hook with
    | Wasm =>
        let run := softwareTranscode loadedWasm hook env forwarded in
        ((loadSteps ++ [SubmitSoftware forwarded run])%list,
         ProDelegated (outcome run))
    | _ =>
        let hw := transcodeWithMediaBunny forwarded (mediaBunny env) in
        let steps := (loadSteps ++ [SubmitHardware forwarded hw])%list in
        match mbResult hw with
        | None =>
            if negb (hasError (wasmError hook)) then
              let reason :=
                match mbFallbackReason hw with
                | Some r => r
                | None => DEFAULT_FALLBACK_REASON
                end in
              if negb (wasmLoads env)
              then ((steps ++ [SetFallbackReason reason; LoadWasm])%list, ProThrew)
              else
                let run := softwareTranscode true hook env forwarded in
                ((steps ++ [SetFallbackReason reason; LoadWasm; SetEngine Wasm;
                            SubmitSoftware forwarded run])%list,
                 ProDelegated (outcome run))
            else (steps, ProNull)
        | Some bytes => (steps, ProBlob bytes)
        end
    end.

(** *** The hook between two calls

    What a run of [load] or [transcode] leaves for the closures of the next
    render. [wasmTranscoder] is the object that [useTranscoder] returned
    in the render that created the closure: its [load] and [transcode]
    are the closures of that render. A successful [wasmTranscoder.load()]
    creates the FFmpeg instance and sets [isLoaded] for the renders that
    follow. *)

Definition initialProHook : ProHook :=
  {| engine := Loading;
     webCodecsAttempted := false;
     wasmError := None;
     wasmHook := initialHook |}.

Definition afterProStep (env : ProEnv) (h : ProHook) (s : ProStep) : ProHook :=
  match s with
  | SetEngine e =>
      {| engine := e;
         webCodecsAttempted := webCodecsAttempted h;
         wasmError := wasmError h;
         wasmHook := wasmHook h |}
  | LoadWasm =>
      if wasmLoads env then
        {| engine := engine h;
           webCodecsAttempted := webCodecsAttempted h;
           wasmError := wasmError h;
           wasmHook :=
             afterEvent (afterEvent (wasmHook h) InstanceCreated) LoadCompleted |}
      else h
  | _ => h
  end.

(** Both [load] and [transcode] run [load]'s
    [webCodecsAttempted.current = true]. *)
Definition afterProRun (env : ProEnv) (h : ProHook) (steps : list ProStep)
  : ProHook :=
  let h' := fold_left (afterProStep env) steps h in
  {| engine := engine h';
     webCodecsAttempted := true;
     wasmError := wasmError h';
     wasmHook := wasmHook h' |}.

(** The states the closures of [useTranscoderPro] can be called in: after
    any number of runs of [load] and [transcode]; a [load] of the software
    transcoder that failed may have created the FFmpeg instance; and the
    software transcoder's error may hold anything. *)
Inductive ProReachable : ProHook -> Prop :=
| reach_initial : ProReachable initialProHook
| reach_load (h : ProHook) (env : ProEnv) :
    ProReachable h -> ProReachable (afterProRun env h (fst (load h env)))
| reach_transcode (h : ProHook) (env : ProEnv) (req : Request) :
    ProReachable h ->
    ProReachable (afterProRun env h (fst (transcodePro h env req)))
| reach_instance (h : ProHook) :
    ProReachable h ->
    ProReachable {| engine := engine h;
                    webCodecsAttempted := webCodecsAttempted h;
                    wasmError := wasmError h;
                    wasmHook := afterEvent (wasmHook h) InstanceCreated |}
| reach_error (h : ProHook) (e : option string) :
    ProReachable h ->
    ProReachable {| engine := engine h;
                    webCodecsAttempted := webCodecsAttempted h;
                    wasmError := e;
                    wasmHook := wasmHook h |}.

Definition isSubmitSoftware (s : ProStep) : bool :=
match s with SubmitSoftware _ _ => true | _ => false end.

Definition isSubmitHardware (s : ProStep) : bool :=
match s with SubmitHardware _ _ => true | _ => false end.

End HardwareTranscoder.

Arguments isSubmitSoftware {A} s.
Arguments isSubmitHardware {A} s.

(** [x.toFixed(1)] in exact arithmetic: the nearest multiple of 0.1, the
    larger one on a tie, after the sign. *)
Definition toFixed1_exact (x : Q) : string :=
  let n := Qfloor (Qabs x * 10 + (1 # 2)) in
  ((if Qltb x 0 then "-" else "")
   ++ JsString.ofInteger (n / 10) ++ "." ++ JsString.ofInteger (n mod 10))%string.

(** ** Requests and environments used in the statements below *)

Section Samples.
Context {A : Type} `{JsNum A}.
Local Open Scope Z_scope.
Local Open Scope string_scope.

(** A request whose [removeAudio] flag is set. *)
Definition removingAudio (file : File) (targetSizeMB : A)
    (optimizeAudio : bool) (outputResolution : OutputResolution)
    (inputWidth inputHeight : option A) : Request :=
  {| reqFile := file;
     reqTargetSizeMB := targetSizeMB;
     reqRemoveAudio := true;
     reqOptimizeAudio := optimizeAudio;
     reqOutputResolution := outputResolution;
     reqInputWidth := inputWidth;
     reqInputHeight := inputHeight |}.

(** A 50 MiB, 1920x1080 MP4 file. *)
Definition sampleFile : File :=
  {| fileSize := 52428800; fileType := "video/mp4"; fileName := "clip.mp4" |}.

Definition sampleRequest (targetSizeMB : A) : Request :=
  {| reqFile := sampleFile;
     reqTargetSizeMB := targetSizeMB;
     reqRemoveAudio := false;
     reqOptimizeAudio := false;
     reqOutputResolution := Original;
     reqInputWidth := Some (ofZ 1920);
     reqInputHeight := Some (ofZ 1080) |}.

Definition loadedHook : HookState :=
  {| ffmpegPresent := true; isLoaded := true; progress := ofZ 0 |}.

(** A probe that meets no error and no log message. *)
Definition silentProbe : ProbeEnv :=
  {| probeFetch := None; probeWrite := None; probeMessages := [];
     probeDelete := fun _ => None |}.

(** [String(Object.prototype[key])] as V8 prints it. *)
Definition v8MemberText (key : string) : string :=
  if String.eqb key "constructor" then "function Object() { [native code] }"
  else if String.eqb key "__proto__" then "[object Object]"
  else "function " ++ key ++ "() { [native code] }".

(** A 90-second encode that logs progress once, one second after the
    start, and then nothing, while the liveness poll fires every 30
    seconds. *)
Definition stalledEnv : FfmpegEnv :=
  {| envMetadata := LoadedMetadata (DurationFinite (ofZ 90));
     envProbe := silentProbe;
     envMemberText := v8MemberText;
     envStart := 0;
     envEvents :=
       [LogLine 1000
          "frame=  120 fps= 30 q=28.0 size=     256kB time=00:00:02.00 bitrate=1048.6kbits/s speed=2x";
        IntervalTick 30000; IntervalTick 60000; IntervalTick 90000;
        IntervalTick 120000; IntervalTick 150000; IntervalTick 180000;
        IntervalTick 210000];
     envOutput := Err "output.mp4: no such file" |}.

(** A 90-second encode that prints its final statistics, then an abort
    during cleanup, and resolves with an 8,000,000-byte output. *)
Definition abortedAfterCompletionEnv : FfmpegEnv :=
  {| envMetadata := LoadedMetadata (DurationFinite (ofZ 90));
     envProbe := silentProbe;
     envMemberText := v8MemberText;
     envStart := 0;
     envEvents :=
       [LogLine 40000
          "frame= 5130 fps= 30 q=28.0 size=    7424kB time=00:01:25.50 bitrate= 711.3kbits/s speed=2x";
        LogLine 42000
          "video:6600kB audio:1400kB subtitle:0kB other streams:0kB global headers:0kB muxing overhead: 0.6%";
        LogLine 42100 "Aborted(OOM)";
        ExecResolved];
     envOutput := Ok 8000000 |}.

(** A 90-second encode that reports progress up to 99%, prints its final
    statistics and resolves, leaving a 500,000-byte output. *)
Definition truncatedOutputEnv : FfmpegEnv :=
  {| envMetadata := LoadedMetadata (DurationFinite (ofZ 90));
     envProbe := silentProbe;
     envMemberText := v8MemberText;
     envStart := 0;
     envEvents :=
       [LogLine 44000
          "frame= 5346 fps= 30 q=28.0 size=     480kB time=00:01:29.10 bitrate=  44.1kbits/s speed=2x";
        LogLine 45000
          "video:420kB audio:60kB subtitle:0kB other streams:0kB global headers:0kB muxing overhead: 1.9%";
        ExecResolved];
     envOutput := Ok 500000 |}.

(** A 10-second file that the browser cannot decode; the FFmpeg probe
    reads its duration from the log. *)
Definition undecodableClipEnv : FfmpegEnv (A:=A) :=
  {| envMetadata := VideoError (Some (4, "DEMUXER_ERROR_COULD_NOT_OPEN"));
     envProbe :=
       {| probeFetch := None;
          probeWrite := None;
          probeMessages :=
            ["Input #0, matroska,webm, from 'probe-input.mp4':";
             "  Duration: 00:00:10.00, start: 0.000000, bitrate: 240 kb/s"];
          probeDelete := fun _ => None |};
     envMemberText := v8MemberText;
     envStart := 0;
     envEvents := [];
     envOutput := Err "output.mp4: no such file" |}.

(** A file whose tracks MediaBunny cannot convert. *)
Definition unsupportedCodecEnv : MediaBunnyEnv :=
  {| mbDuration := Ok (ofZ 90);
     mbVideoTrack := Some {| width := ofZ 1920; height := ofZ 1080 |};
     mbAudioTrack := true;
     mbIsValid := false;
     mbDiscardedTracks := ["undecodable_source_codec"];
     mbExecute := None;
     mbOutputBytes := 0 |}.

(** A 10-second file that MediaBunny converts to 200,000 bytes. *)
Definition shortClipEnv : MediaBunnyEnv :=
  {| mbDuration := Ok (ofZ 10);
     mbVideoTrack := Some {| width := ofZ 1920; height := ofZ 1080 |};
     mbAudioTrack := true;
     mbIsValid := true;
     mbDiscardedTracks := [];
     mbExecute := None;
     mbOutputBytes := 200000 |}.

(** The hook after [load] has selected the hardware engine: the software
    transcoder has not been loaded. *)
Definition hookWebCodecs : ProHook :=
  {| engine := WebCodecs;
     webCodecsAttempted := true;
     wasmError := None;
     wasmHook := initialHook |}.

(** The same hook after a fallback whose [wasmTranscoder.load()] failed:
    the software transcoder holds the error of that load. *)
Definition hookWithWasmError : ProHook :=
  {| engine := WebCodecs;
     webCodecsAttempted := true;
     wasmError := Some "Failed to load FFmpeg core file (ffmpeg-core.js).";
     wasmHook := afterEvent initialHook InstanceCreated |}.

Definition unsupportedCodecProEnv : ProEnv :=
  {| webCodecsAvailable := true;
     wasmLoads := true;
     mediaBunny := unsupportedCodecEnv;
     ffmpeg := abortedAfterCompletionEnv |}.

End Samples.

Unset Implicit Arguments.

(** * Properties *)

(** ** Exact arithmetic: comparisons, minimum, maximum, rounding *)

Ltac exact_ops :=
  cbv [ofZ jadd jsub jmul jdiv jleb jltb jmin jmax jfloor jceil jround
       JsNum_Q dec] in *.

Lemma Qleb_true (x y : Q) : Qleb x y = true <-> x <= y.
Proof. apply Qle_bool_iff. Qed.

Lemma Qleb_false (x y : Q) : Qleb x y = false <-> y < x.
Proof.
  unfold Qleb. rewrite <- not_true_iff_false, Qle_bool_iff. split.
  - apply Qnot_le_lt.
  - apply Qlt_not_le.
Qed.

Lemma Qltb_true (x y : Q) : Qltb x y = true <-> x < y.
Proof. unfold Qltb. rewrite negb_true_iff. apply Qleb_false. Qed.

Lemma Qltb_false (x y : Q) : Qltb x y = false <-> y <= x.
Proof. unfold Qltb. rewrite negb_false_iff. apply Qleb_true. Qed.

Lemma Qmin'_cases (x y : Q) :
  (x <= y /\ Qmin' x y = x) \/ (y < x /\ Qmin' x y = y).
Proof.
  unfold Qmin'. destruct (Qle_bool x y) eqn:E.
  - left. split; [ apply Qle_bool_iff, E | reflexivity ].
  - right. split; [ apply Qleb_false, E | reflexivity ].
Qed.

Lemma Qmax'_cases (x y : Q) :
  (x <= y /\ Qmax' x y = y) \/ (y < x /\ Qmax' x y = x).
Proof.
  unfold Qmax'. destruct (Qle_bool x y) eqn:E.
  - left. split; [ apply Qle_bool_iff, E | reflexivity ].
  - right. split; [ apply Qleb_false, E | reflexivity ].
Qed.

(** Case analysis on every minimum and maximum in sight. *)
Ltac split_minmax :=
  repeat match goal with
  | |- context [Qmin' ?x ?y] =>
      let E := fresh "E" in
      destruct (Qmin'_cases x y) as [[? E] | [? E]]; rewrite E in *; clear E
  | |- context [Qmax' ?x ?y] =>
      let E := fresh "E" in
      destruct (Qmax'_cases x y) as [[? E] | [? E]]; rewrite E in *; clear E
  | _ : context [Qmin' ?x ?y] |- _ =>
      let E := fresh "E" in
      destruct (Qmin'_cases x y) as [[? E] | [? E]]; rewrite E in *; clear E
  | _ : context [Qmax' ?x ?y] |- _ =>
      let E := fresh "E" in
      destruct (Qmax'_cases x y) as [[? E] | [? E]]; rewrite E in *; clear E
  end.

Ltac split_Qleb :=
  repeat match goal with
  | |- context [Qleb ?x ?y] =>
      let E := fresh "E" in
      destruct (Qleb x y) eqn:E;
      [ apply Qleb_true in E | apply Qleb_false in E ]
  end.

(** Closed quotients and integer literals in the form [n # d] that [lra]
    reads. *)
Ltac literals :=
  repeat match goal with
  | |- context [Qdiv (inject_Z (Zpos ?n)) (inject_Z (Zpos ?d))] =>
      let v := eval vm_compute in (Qdiv (inject_Z (Zpos n)) (inject_Z (Zpos d))) in
      change (Qdiv (inject_Z (Zpos n)) (inject_Z (Zpos d))) with v in *
  | _ : context [Qdiv (inject_Z (Zpos ?n)) (inject_Z (Zpos ?d))] |- _ =>
      let v := eval vm_compute in (Qdiv (inject_Z (Zpos n)) (inject_Z (Zpos d))) in
      change (Qdiv (inject_Z (Zpos n)) (inject_Z (Zpos d))) with v in *
  end;
  repeat match goal with
  | |- context [inject_Z (Zpos ?p)] =>
      change (inject_Z (Zpos p)) with (Zpos p # 1) in *
  | _ : context [inject_Z (Zpos ?p)] |- _ =>
      change (inject_Z (Zpos p)) with (Zpos p # 1) in *
  | |- context [inject_Z Z0] => change (inject_Z Z0) with (0 # 1) in *
  | _ : context [inject_Z Z0] |- _ => change (inject_Z Z0) with (0 # 1) in *
  end.

(** Division by a literal as multiplication by its inverse. *)
Ltac const_div :=
  repeat match goal with
  | |- context [Qdiv ?x (?n # ?d)] =>
      let v := eval vm_compute in (Qinv (n # d)) in
      change (Qdiv x (n # d)) with (Qmult x v) in *
  | _ : context [Qdiv ?x (?n # ?d)] |- _ =>
      let v := eval vm_compute in (Qinv (n # d)) in
      change (Qdiv x (n # d)) with (Qmult x v) in *
  end.

Lemma Qfloor'_mono (x y : Q) : x <= y -> Qfloor' x <= Qfloor' y.
Proof.
  intros Hxy. unfold Qfloor'. rewrite <- Zle_Qle. apply Qfloor_resp_le, Hxy.
Qed.

Lemma Qfloor'_bounds (x : Q) : Qfloor' x <= x /\ x < Qfloor' x + 1.
Proof.
  unfold Qfloor'. split.
  - apply Qfloor_le.
  - pose proof (Qlt_floor x) as Hc. rewrite inject_Z_plus in Hc.
    change (inject_Z 1) with 1 in Hc. exact Hc.
Qed.

Lemma Qceil'_bounds (x : Q) : x <= Qceil' x /\ Qceil' x < x + 1.
Proof.
  unfold Qceil'. split.
  - apply Qle_ceiling.
  - pose proof (Qceiling_lt x) as Hc.
    replace (Qceiling x - 1)%Z with (Qceiling x + (-1))%Z in Hc by lia.
    rewrite inject_Z_plus in Hc.
    change (inject_Z (-1)) with (-1 # 1) in Hc. lra.
Qed.

Lemma Qround'_bounds (y : Q) : y - (1 # 2) < Qround' y /\ Qround' y <= y + (1 # 2).
Proof.
  unfold Qround'. destruct (Qfloor'_bounds (y + (1 # 2))) as [F1 F2].
  unfold Qfloor' in *. split; lra.
Qed.

Lemma Qround'_integer (y : Q) : exists n : Z, Qround' y = inject_Z n.
Proof. eexists. reflexivity. Qed.

(** An integer between two integers plus or minus a half. *)
Lemma integer_within (n lo hi : Z) (y : Q) :
  inject_Z lo - (1 # 2) <= y -> y < inject_Z hi + (1 # 2) ->
  y - (1 # 2) < inject_Z n -> inject_Z n <= y + (1 # 2) ->
  inject_Z lo <= inject_Z n /\ inject_Z n <= inject_Z hi.
Proof.
  intros H1 H2 H3 H4.
  assert (L : inject_Z lo - 1 < inject_Z n) by lra.
  assert (U : inject_Z n < inject_Z hi + 1) by lra.
  change 1 with (inject_Z 1) in L, U.
  rewrite <- inject_Z_plus in U.
  assert (L' : inject_Z (lo - 1) < inject_Z n).
  { unfold Z.sub. rewrite inject_Z_plus. exact L. }
  rewrite <- Zlt_Qlt in L', U. rewrite <- !Zle_Qle. lia.
Qed.

Lemma scale_le (a b u : Q) : 0 < u -> a <= b -> a * u <= b * u.
Proof. intros Hu Hab. apply Qmult_le_compat_r; [ exact Hab | lra ]. Qed.

Lemma Qinv_antitone (d1 d2 : Q) : 0 < d1 -> d1 <= d2 -> / d2 <= / d1.
Proof.
  intros H1 H2.
  destruct (Qle_lt_or_eq _ _ H2) as [Hlt | Heq].
  - assert (Hd2 : 0 < d2) by lra.
    apply Qlt_le_weak, (proj1 (Qinv_lt_contravar d1 d2 H1 Hd2) Hlt).
  - rewrite Heq. apply Qle_refl.
Qed.

Lemma inject_Z_nonzero (b : Z) : (0 < b)%Z -> ~ inject_Z b == 0.
Proof. intros Hb E. apply (proj1 (inject_Z_injective b 0)) in E. lia. Qed.

Lemma Qleb_inject (a b : Z) : Qleb (inject_Z a) (inject_Z b) = (a <=? b)%Z.
Proof.
  apply eq_true_iff_eq. rewrite Qleb_true, Z.leb_le, Zle_Qle. reflexivity.
Qed.

Lemma Qltb_inject (a b : Z) : Qltb (inject_Z a) (inject_Z b) = (a <? b)%Z.
Proof.
  apply eq_true_iff_eq. rewrite Qltb_true, Z.ltb_lt, Zlt_Qlt. reflexivity.
Qed.

Lemma Qmin'_inject (a b : Z) :
  Qmin' (inject_Z a) (inject_Z b) = inject_Z (Z.min a b).
Proof.
  unfold Qmin'.
  change (Qle_bool (inject_Z a) (inject_Z b)) with (Qleb (inject_Z a) (inject_Z b)).
  rewrite Qleb_inject. destruct (Z.leb_spec a b); f_equal; lia.
Qed.

(** [Math.round] of a quotient of integers, in integer division. *)
Lemma Qround'_quotient (x : Q) (a b : Z) :
  (0 < b)%Z -> x == inject_Z a / inject_Z b ->
  Qround' x = inject_Z ((2 * a + b) / (2 * b)).
Proof.
  intros Hb Hx. unfold Qround'. f_equal.
  rewrite Zdiv_Qdiv. apply Qfloor_comp.
  rewrite Hx, inject_Z_plus, !inject_Z_mult.
  pose proof (inject_Z_nonzero b Hb).
  change (inject_Z 2) with 2. field. assumption.
Qed.

Lemma rounded_quotient_bounds (a b : Z) :
  (0 < b)%Z ->
  let q := ((2 * a + b) / (2 * b))%Z in
  (2 * b * q <= 2 * a + b /\ 2 * a + b < 2 * b * q + 2 * b)%Z.
Proof.
  intros Hb q.
  pose proof (Z.div_mod (2 * a + b) (2 * b) ltac:(lia)) as E.
  pose proof (Z.mod_pos_bound (2 * a + b) (2 * b) ltac:(lia)) as B.
  unfold q. lia.
Qed.

(** ** Bitrate calculator *)

Lemma adjusted_mono (t1 t2 : Q) :
  t1 <= t2 -> adjustedTargetSizeMB t1 <= adjustedTargetSizeMB t2.
Proof.
  intros Ht.
  unfold adjustedTargetSizeMB, bufferMB, BUFFER_MAX_MB, BUFFER_MIN_MB.
  exact_ops. literals. split_minmax; lra.
Qed.

Lemma adjusted_pos (t : Q) : 0 < adjustedTargetSizeMB t.
Proof.
  unfold adjustedTargetSizeMB, bufferMB, BUFFER_MAX_MB, BUFFER_MIN_MB.
  exact_ops. literals. split_minmax; lra.
Qed.

Lemma adjusted_bounds (size : Q) :
  ((size - (244140625 # 1000000000) <= adjustedTargetSizeMB size)
   \/ (size - size * (2 # 100) <= adjustedTargetSizeMB size))
  /\ ((adjustedTargetSizeMB size <= 1 # 10)
      \/ (adjustedTargetSizeMB size <= size - (244140625 # 1000000000))).
Proof.
  unfold adjustedTargetSizeMB, bufferMB, BUFFER_MAX_MB, BUFFER_MIN_MB.
  exact_ops. literals. split_minmax; split; first [ left; lra | right; lra ].
Qed.

Lemma calculateBitrate_eq (t d a : Q) :
  0 < t -> 0 < d ->
  calculateBitrate t d a
  = Ok (Qfloor' ((adjustedTargetSizeMB t * inject_Z 8192 / d - a)
                 * (inject_Z 95 / inject_Z 100))).
Proof.
  intros Ht Hd. unfold calculateBitrate. exact_ops.
  assert (E1 : Qleb d (inject_Z 0) = false) by (apply Qleb_false; exact Hd).
  assert (E2 : Qleb t (inject_Z 0) = false) by (apply Qleb_false; exact Ht).
  rewrite E1, E2. reflexivity.
Qed.

Lemma spec_adjusted_eq (t : Q) :
  Qmax' (1 # 10) (t - spec_clamp (t * (2 # 100)) (244140625 # 1000000000) 2)
  = adjustedTargetSizeMB t.
Proof. reflexivity. Qed.

Example calculateBitrate_exact_8_90 :
  calculateBitrate (8 : Q) 90 128 = Ok (549 : Q).
Proof. vm_compute. reflexivity. Qed.

Example calculateBitrate_binary64_8_90 :
  calculateBitrate (ofZ 8 : float) (ofZ 90) (ofZ 128) = Ok (ofZ 549).
Proof. vm_compute. reflexivity. Qed.

(** C1, as stated, fails: for 8 MB, 90 s and 128 kbps of audio the
    calculator returns 549, while the specification's five-step formula
    gives 4941520/9 (about 549057.8) bits per second. *)
Lemma calculateBitrate_is_not_spec_formula :
  calculateBitrate (8 : Q) 90 128 = Ok (549 : Q) /\
  spec_computeVideoBitrate 8 90 128000 == 4941520 # 9 /\
  ~ (549 == spec_computeVideoBitrate 8 90 128000).
Proof.
  split; [ vm_compute; reflexivity | ].
  split; [ vm_compute; reflexivity | ].
  vm_compute. discriminate.
Qed.

(** In every number model the calculator is [Math.floor] of the five steps
    carried out in kbps. *)
Lemma calculateBitrate_unfolds {A : Type} `{JsNum A} (t d a : A) :
  jleb d (ofZ 0) = false -> jleb t (ofZ 0) = false ->
  calculateBitrate t d a = Ok (jfloor (spec_videoBitrateKbps t d a)).
Proof.
  intros Hd Ht. unfold calculateBitrate. rewrite Hd, Ht. reflexivity.
Qed.

(** In exact arithmetic the calculator's result is the specification's
    formula divided by 1000 and rounded down. *)
Lemma calculateBitrate_exact_floor (t d a : Q) :
  0 < t -> 0 < d ->
  spec_videoBitrateKbps t d a * 1000 == spec_computeVideoBitrate t d (a * 1000)
  /\ exists r : Z,
       calculateBitrate t d a = Ok (inject_Z r) /\
       inject_Z r * 1000 <= spec_computeVideoBitrate t d (a * 1000) /\
       spec_computeVideoBitrate t d (a * 1000) < (inject_Z r + 1) * 1000.
Proof.
  intros Ht Hd.
  set (x := (adjustedTargetSizeMB t * inject_Z 8192 / d - a)
            * (inject_Z 95 / inject_Z 100)).
  assert (E : spec_computeVideoBitrate t d (a * 1000) == x * 1000).
  { unfold spec_computeVideoBitrate, x. rewrite spec_adjusted_eq.
    literals. field. lra. }
  split.
  - rewrite E. reflexivity.
  - rewrite calculateBitrate_eq by assumption. fold x.
    exists (Qfloor x). split; [ reflexivity | ].
    pose proof (Qfloor_le x) as Hlo. pose proof (Qlt_floor x) as Hhi.
    rewrite E. rewrite inject_Z_plus in Hhi. change (inject_Z 1) with 1 in Hhi.
    split; nra.
Qed.

(** C1, amended: whenever the two guards pass, the calculator takes the
    audio bitrate in kbps and returns, in the program's own arithmetic
    (any number model, binary64 included), [Math.floor] of the five steps
    carried out in kilobits per second -- a whole number of kbps, not the
    formula's value in bits per second. In exact arithmetic that is the
    specification's formula divided by 1000 and rounded down:
    [1000 r <= formula < 1000 (r + 1)]. In binary64 the rounding of the
    intermediate steps can make the result one less where the exact value
    is a whole number: for 10 MB, 19 s and no audio the program returns
    3995, the exact value being 3996; for 8 MB, 90 s and 128 kbps both
    give 549; and on every whole number of megabytes from 1 to 50 and of
    seconds from 1 to 120, with 0, 96 or 128 kbps of audio, the binary64
    result is the exact one or one less. *)
Theorem calculateBitrate_floor_of_kbps_formula :
  (forall (A : Type) (N : JsNum A) (t d a : A),
      jleb d (ofZ 0) = false -> jleb t (ofZ 0) = false ->
      calculateBitrate t d a = Ok (jfloor (spec_videoBitrateKbps t d a)))
  /\ (forall t d a : Q,
         0 < t -> 0 < d ->
         spec_videoBitrateKbps t d a * 1000
         == spec_computeVideoBitrate t d (a * 1000)
         /\ exists r : Z,
              calculateBitrate t d a = Ok (inject_Z r) /\
              inject_Z r * 1000 <= spec_computeVideoBitrate t d (a * 1000) /\
              spec_computeVideoBitrate t d (a * 1000) < (inject_Z r + 1) * 1000)
  /\ calculateBitrate (ofZ 8 : float) (ofZ 90) (ofZ 128) = Ok (ofZ 549)
  /\ calculateBitrate (8 : Q) 90 128 = Ok 549
  /\ calculateBitrate (ofZ 10 : float) (ofZ 19) (ofZ 0) = Ok (ofZ 3995)
  /\ calculateBitrate (10 : Q) 19 0 = Ok 3996
  /\ forallb
       (fun t =>
          forallb
            (fun d => forallb (fun a => exactOrOneLess t d a) [0; 96; 128]%Z)
            (map Z.of_nat (seq 1 120)))
       (map Z.of_nat (seq 1 50))
     = true.
Proof.
  split; [ intros A N t d a; apply calculateBitrate_unfolds | ].
  split; [ exact calculateBitrate_exact_floor | ].
  do 4 (split; [ vm_compute; reflexivity | ]).
  vm_compute. reflexivity.
Qed.

Lemma calculateBitrate_floor_of_kbps_formula_witness :
  calculateBitrate (dec 65 10 : float) (ofZ 76) (ofZ 128)
  = Ok (jfloor (spec_videoBitrateKbps (dec 65 10) (ofZ 76) (ofZ 128)))
  /\ jfloor (spec_videoBitrateKbps (dec 65 10 : float) (ofZ 76) (ofZ 128))
     = ofZ 518
  /\ exists r : Z,
       calculateBitrate (65 # 10) 76 128 = Ok (inject_Z r) /\
       inject_Z r * 1000 <= spec_computeVideoBitrate (65 # 10) 76 (128 * 1000) /\
       spec_computeVideoBitrate (65 # 10) 76 (128 * 1000) < (inject_Z r + 1) * 1000.
Proof.
  split.
  - apply (proj1 calculateBitrate_floor_of_kbps_formula float JsNum_float);
      reflexivity.
  - split; [ vm_compute; reflexivity | ].
    apply (proj1 (proj2 calculateBitrate_floor_of_kbps_formula) (65 # 10) 76 128);
      reflexivity.
Defined.

(** C5: with the audio bitrate fixed, the calculator's result does not
    decrease when the target size grows and does not increase when the
    duration grows (exact arithmetic). *)
Theorem calculateBitrate_monotone (t t' d d' a : Q) :
  0 < t -> t <= t' -> 0 < d -> d <= d' -> 0 <= a ->
  exists r r_size r_duration : Q,
    calculateBitrate t d a = Ok r /\
    calculateBitrate t' d a = Ok r_size /\
    calculateBitrate t d' a = Ok r_duration /\
    r <= r_size /\ r_duration <= r.
Proof.
  intros Ht Htt Hd Hdd Ha.
  assert (Ht' : 0 < t') by lra.
  assert (Hd' : 0 < d') by lra.
  do 3 eexists.
  rewrite !calculateBitrate_eq by assumption.
  repeat split; try reflexivity.
  - apply Qfloor'_mono.
    pose proof (adjusted_mono t t' Htt) as Hm.
    assert (Hu : 0 < / d) by (apply Qinv_lt_0_compat; exact Hd).
    literals. unfold Qdiv.
    set (u := / d) in *. clearbody u.
    set (x := adjustedTargetSizeMB t) in *.
    set (x' := adjustedTargetSizeMB t') in *.
    clearbody x x'. nra.
  - apply Qfloor'_mono.
    pose proof (adjusted_pos t) as Hp.
    pose proof (Qinv_antitone d d' Hd Hdd) as Hi.
    literals. unfold Qdiv.
    set (u := / d) in *. set (u' := / d') in *. clearbody u u'.
    set (x := adjustedTargetSizeMB t) in *. clearbody x. nra.
Qed.

Lemma calculateBitrate_monotone_witness :
  0 < 8 /\ 8 <= 25 /\ 0 < 90 /\ 90 <= 120 /\ 0 <= 128 /\
  exists r r_size r_duration : Q,
    calculateBitrate 8 90 128 = Ok r /\
    calculateBitrate 25 90 128 = Ok r_size /\
    calculateBitrate 8 120 128 = Ok r_duration /\
    r <= r_size /\ r_duration <= r.
Proof.
  repeat (split; [ first [ reflexivity | discriminate ] | ]).
  apply (calculateBitrate_monotone 8 25 90 120 128);
    first [ reflexivity | discriminate ].
Defined.

Lemma rate_at_resolved_size (v d size : Q) :
  0 <= v -> 10 <= d ->
  exactSizeMB v d <= size -> size <= exactSizeMB v d + (1 # 10) ->
  let Y := (adjustedTargetSizeMB size * inject_Z 8192 / d - 128)
           * (inject_Z 95 / inject_Z 100) in
  Y <= v + (64 # 10)
  /\ (v + (64 # 10) - 1900 * / d <= Y
      \/ (98 # 100) * v + (384 # 100) - (155648 # 10000) * / d <= Y).
Proof.
  intros Hv Hd Hlo Hhi Y.
  assert (Hd0 : 0 < d) by lra.
  assert (Hx : 1 # 10 <= exactSizeMB v d).
  { unfold exactSizeMB. nra. }
  set (u := / d).
  assert (Hu : 0 < u) by (apply Qinv_lt_0_compat; exact Hd0).
  assert (Ex : exactSizeMB v d * u == (v + 128) * (100 # 778240)).
  { unfold exactSizeMB, u. field. lra. }
  pose proof (scale_le _ _ u Hu Hlo) as Hlo'.
  pose proof (scale_le _ _ u Hu Hhi) as Hhi'.
  pose proof (scale_le _ _ u Hu Hx) as Hx'.
  destruct (adjusted_bounds size) as [HL HU].
  assert (EY : Y == (adjustedTargetSizeMB size * u * 8192 - 128) * (95 # 100)).
  { unfold Y, u. literals. field. lra. }
  set (a := adjustedTargetSizeMB size) in *. clearbody a.
  set (x := exactSizeMB v d) in *. clearbody x.
  rewrite EY. clear EY Y.
  split.
  - destruct HU as [HU | HU]; pose proof (scale_le _ _ u Hu HU) as HU'; nra.
  - destruct HL as [HL | HL]; pose proof (scale_le _ _ u Hu HL) as HL';
      [ left | right ]; nra.
Qed.

(** ** Feasibility *)

(** C2 fails on the code: for a 10-second video the computed minimum size
    is 0.3 MB, and validating that size gives [valid = false] (the bitrate
    at 0.3 MB is -44 kbps): [calculateMinimumSize] leaves out the safety
    buffer that [calculateBitrate] subtracts. Exact arithmetic and binary64
    agree. *)
Theorem minimum_size_of_10s_is_rejected :
  validateTargetSize (10 : Q) (calculateMinimumSize 10)
  = Ok {| valid := false; minSizeMB := 3 # 10; recommendedSizeMB := 92 # 10 |}
  /\ calculateBitrate (calculateMinimumSize (10 : Q)) 10 128 = Ok (-44 : Q)
  /\ (exists v : SizeValidation (A:=float),
        validateTargetSize (ofZ 10) (calculateMinimumSize (ofZ 10)) = Ok v
        /\ valid v = false)
  /\ calculateBitrate (calculateMinimumSize (ofZ 10 : float)) (ofZ 10) (ofZ 128)
     = Ok (ofZ (-44)).
Proof.
  split; [ vm_compute; reflexivity | ].
  split; [ vm_compute; reflexivity | ].
  split; [ eexists; split; vm_compute; reflexivity | ].
  vm_compute. reflexivity.
Qed.

(** From five minutes on, the computed minimum size is feasible. *)
Lemma minimum_size_is_valid_from_300s (d : Q) :
  300 <= d ->
  exists v : SizeValidation (A:=Q),
    validateTargetSize d (calculateMinimumSize d) = Ok v /\ valid v = true.
Proof.
  intros Hd.
  assert (Hd0 : 0 < d) by lra.
  set (m := calculateMinimumSize d).
  assert (Hm : exactSizeMB 100 d <= m /\ m <= exactSizeMB 100 d + (1 # 10)).
  { unfold m, calculateMinimumSize. exact_ops.
    set (X := (inject_Z 100 + inject_Z 128) / (inject_Z 95 / inject_Z 100) * d
              / inject_Z 8192).
    assert (EX : X == exactSizeMB 100 d).
    { unfold X, exactSizeMB. literals. field. }
    destruct (Qceil'_bounds (X * inject_Z 10)) as [C1 C2].
    rewrite <- EX. literals.
    set (c := Qceil' (X * (10 # 1))) in *. clearbody c X.
    assert (Hdiv : c / (10 # 1) == c * (1 # 10)) by field.
    rewrite Hdiv. split; lra. }
  destruct Hm as [M1 M2].
  assert (Hx : 1 # 10 <= exactSizeMB 100 d) by (unfold exactSizeMB; lra).
  assert (Hm0 : 0 < m) by lra.
  unfold validateTargetSize.
  change (ofZ 128) with (128 : Q).
  rewrite calculateBitrate_eq by assumption.
  eexists. split; [ reflexivity | ]. cbn [valid]. exact_ops.
  apply Qleb_true.
  destruct (rate_at_resolved_size 100 d m ltac:(lra) ltac:(lra) M1 M2) as [_ YL].
  set (Y := (adjustedTargetSizeMB m * inject_Z 8192 / d - 128)
            * (inject_Z 95 / inject_Z 100)) in *.
  change (inject_Z 100) with (Qfloor' (inject_Z 100)).
  apply Qfloor'_mono.
  set (u := / d) in *.
  assert (Hu : u <= 1 # 300).
  { unfold u. change (1 # 300) with (/ 300). apply Qinv_antitone; lra. }
  assert (Hu0 : 0 < u) by (apply Qinv_lt_0_compat; exact Hd0).
  clearbody Y u. literals. destruct YL; lra.
Qed.

(** ** Resolution planner *)

(** [Math.round(m / (w / h))] and [Math.round(m * (w / h))] on integers. *)
Lemma round_over_ratio (m w h : Z) :
  (0 < w)%Z -> (0 < h)%Z ->
  Qround' (inject_Z m / (inject_Z w / inject_Z h))
  = inject_Z ((2 * (m * h) + w) / (2 * w)).
Proof.
  intros Hw Hh. apply Qround'_quotient; [ exact Hw | ].
  rewrite inject_Z_mult. field.
  split; apply inject_Z_nonzero; assumption.
Qed.

Lemma round_times_ratio (m w h : Z) :
  (0 < w)%Z -> (0 < h)%Z ->
  Qround' (inject_Z m * (inject_Z w / inject_Z h))
  = inject_Z ((2 * (m * w) + h) / (2 * h)).
Proof.
  intros Hw Hh. apply Qround'_quotient; [ exact Hh | ].
  rewrite inject_Z_mult. field.
  apply inject_Z_nonzero; assumption.
Qed.

Section PlannerContract.
Local Open Scope Z_scope.

(** The contract for any landscape box [pw x ph]. *)
Lemma getTargetDimensions_preset (cap : OutputResolution) (pw ph w h : Z) :
  RESOLUTION_PRESETS cap
  = Some {| width := inject_Z pw; height := inject_Z ph |} ->
  0 < ph < pw -> 0 < w -> 0 < h ->
  match getTargetDimensions cap (inject_Z w) (inject_Z h) with
  | None => w <= pw /\ h <= ph
  | Some out =>
      ~ (w <= pw /\ h <= ph) /\
      exists ow oh : Z,
        out = {| width := inject_Z ow; height := inject_Z oh |} /\
        ow <= pw /\ oh <= ph /\ ow <= w /\ oh <= h /\
        (2 * Z.abs (oh * w - ow * h) <= w \/ 2 * Z.abs (ow * h - oh * w) <= h)
  end.
Proof.
  intros Hpreset Hbox Hw Hh.
  unfold getTargetDimensions. rewrite Hpreset. cbn [width height].
  cbv [ofZ jadd jsub jmul jdiv jleb jltb jmin jmax jfloor jceil jround JsNum_Q].
  rewrite !Qleb_inject, !Qmin'_inject.
  destruct (Z.leb_spec w pw) as [Hwf | Hwf];
    destruct (Z.leb_spec h ph) as [Hhf | Hhf];
    cbn [andb]; try (split; assumption).
  all: destruct (Z.leb_spec h w) as [Hland | Hport].
  all: rewrite ?round_over_ratio, ?round_times_ratio, ?Qltb_inject by assumption.
  all: rewrite ?round_over_ratio, ?round_times_ratio, ?Qltb_inject by assumption.
  all: pose proof (rounded_quotient_bounds (Z.min pw w * h) w Hw) as B1.
  all: pose proof (rounded_quotient_bounds (Z.min ph h * w) h Hh) as B2.
  all: cbv zeta in B1, B2.
  all: set (q1 := (2 * (Z.min pw w * h) + w) / (2 * w)) in *.
  all: set (q2 := (2 * (Z.min ph h * w) + h) / (2 * h)) in *.
  all: clearbody q1 q2.
  all: match goal with |- context [?a <? ?b] => destruct (Z.ltb_spec a b) end.
  all: (split; [ lia | ]).
  all: eexists _, _; split; [ reflexivity | ].
  all: repeat split; try nia.
Qed.

Lemma fitsWithin_box (cap : OutputResolution) (pw ph w h : Z) :
  RESOLUTION_PRESETS cap
  = Some {| width := inject_Z pw; height := inject_Z ph |} ->
  fitsWithin cap w h <-> w <= pw /\ h <= ph.
Proof.
  intros Hpreset. unfold fitsWithin. rewrite Hpreset. cbn [width height].
  rewrite <- !Zle_Qle. reflexivity.
Qed.

(** C6: for positive integer input dimensions, the planner returns
    [undefined] exactly when the cap is ['original'] or the input fits
    within the cap's box; otherwise it returns integers [ow x oh] that fit
    within the box, do not exceed the input, and keep the aspect ratio to
    the nearest pixel ([oh] is [ow * h / w] rounded to nearest, or [ow] is
    [oh * w / h] rounded to nearest). In particular 3840x2160 capped at
    720p gives 1280x720, and 640x480 capped at 1080p gives [undefined],
    in exact arithmetic and in binary64. *)
Theorem getTargetDimensions_contract :
  (forall (cap : OutputResolution) (w h : Z),
      0 < w -> 0 < h ->
      match getTargetDimensions cap (inject_Z w) (inject_Z h) with
      | None => fitsWithin cap w h
      | Some out =>
          ~ fitsWithin cap w h /\
          exists ow oh : Z,
            out = {| width := inject_Z ow; height := inject_Z oh |} /\
            fitsWithin cap ow oh /\ ow <= w /\ oh <= h /\
            (2 * Z.abs (oh * w - ow * h) <= w
             \/ 2 * Z.abs (ow * h - oh * w) <= h)
      end)
  /\ getTargetDimensions R720p 3840%Q 2160%Q
     = Some {| width := 1280%Q; height := 720%Q |}
  /\ getTargetDimensions R1080p 640%Q 480%Q = None
  /\ getTargetDimensions R720p (ofZ 3840 : float) (ofZ 2160)
     = Some {| width := ofZ 1280; height := ofZ 720 |}
  /\ getTargetDimensions R1080p (ofZ 640 : float) (ofZ 480) = None.
Proof.
  split; [ | repeat split; vm_compute; reflexivity ].
  intros cap w h Hw Hh.
  destruct cap.
  - exact I.
  - pose proof (getTargetDimensions_preset R1080p 1920 1080 w h
                  eq_refl ltac:(lia) Hw Hh) as P.
    pose proof (fun a b => fitsWithin_box R1080p 1920 1080 a b eq_refl) as F.
    destruct (getTargetDimensions R1080p (inject_Z w) (inject_Z h)).
    + destruct P as [Hn (ow & oh & -> & P)]. rewrite F. split; [ exact Hn | ].
      exists ow, oh. rewrite F. intuition.
    + apply F, P.
  - pose proof (getTargetDimensions_preset R720p 1280 720 w h
                  eq_refl ltac:(lia) Hw Hh) as P.
    pose proof (fun a b => fitsWithin_box R720p 1280 720 a b eq_refl) as F.
    destruct (getTargetDimensions R720p (inject_Z w) (inject_Z h)).
    + destruct P as [Hn (ow & oh & -> & P)]. rewrite F. split; [ exact Hn | ].
      exists ow, oh. rewrite F. intuition.
    + apply F, P.
  - pose proof (getTargetDimensions_preset R480p 854 480 w h
                  eq_refl ltac:(lia) Hw Hh) as P.
    pose proof (fun a b => fitsWithin_box R480p 854 480 a b eq_refl) as F.
    destruct (getTargetDimensions R480p (inject_Z w) (inject_Z h)).
    + destruct P as [Hn (ow & oh & -> & P)]. rewrite F. split; [ exact Hn | ].
      exists ow, oh. rewrite F. intuition.
    + apply F, P.
Qed.

Lemma getTargetDimensions_contract_witness :
  0 < 1080 /\ 0 < 1920 /\
  match getTargetDimensions R720p (inject_Z 1080) (inject_Z 1920) with
  | None => fitsWithin R720p 1080 1920
  | Some out =>
      ~ fitsWithin R720p 1080 1920 /\
      exists ow oh : Z,
        out = {| width := inject_Z ow; height := inject_Z oh |} /\
        fitsWithin R720p ow oh /\ ow <= 1080 /\ oh <= 1920 /\
        (2 * Z.abs (oh * 1080 - ow * 1920) <= 1080
         \/ 2 * Z.abs (ow * 1920 - oh * 1080) <= 1920)
  end.
Proof.
  split; [ lia | ]. split; [ lia | ].
  apply (proj1 getTargetDimensions_contract R720p 1080 1920); lia.
Defined.

End PlannerContract.

(** ** Quality round trip *)

(** C3, as stated, fails: for a 60-second 3840x2160 input and score 90 the
    resolver sizes the file for a 1280x720 output (33 MB), while the
    estimate under the ['original'] cap counts 3840x2160 pixels and gives
    16. Exact arithmetic and binary64 agree. *)
Lemma round_trip_fails_above_1080p :
  calculateTargetSizeForQuality (90 : Q) 60 (Some 3840) (Some 2160) == 33
  /\ roundTripScore (90 : Q) 60 (Some 3840) (Some 2160) = Some 16
  /\ roundTripHolds (A:=Q) 90 60 (Some 3840%Z) (Some 2160%Z) = false
  /\ roundTripScore (ofZ 90 : float) (ofZ 60) (Some (ofZ 3840)) (Some (ofZ 2160))
     = Some (ofZ 16)
  /\ roundTripHolds (A:=float) 90 60 (Some 3840%Z) (Some 2160%Z) = false.
Proof.
  repeat split; vm_compute; reflexivity.
Qed.

(** The rounding up to 0.1 MB alone breaks the round trip on a short, small
    video: one second of 100x100 at score 30 is sized 0.1 MB and estimated
    at 100. *)
Example round_trip_fails_on_short_small_video :
  calculateTargetSizeForQuality (30 : Q) 1 (Some 100) (Some 100) == 1 # 10
  /\ roundTripScore (30 : Q) 1 (Some 100) (Some 100) = Some 100
  /\ roundTripScore (ofZ 30 : float) (ofZ 1) (Some (ofZ 100)) (Some (ofZ 100))
     = Some (ofZ 100).
Proof.
  repeat split; vm_compute; reflexivity.
Qed.

Lemma assumedOutputSize_within_1080p (w h : Q) :
  0 < w -> w <= 1920 -> 0 < h -> h <= 1080 ->
  assumedOutputSize (Some w) (Some h) = (w, h)
  /\ estimateOutputSize (Some w) (Some h) Original = (w, h).
Proof.
  intros Hw Hw' Hh Hh'.
  unfold assumedOutputSize, estimateOutputSize, bothTruthy, orDefault, truthy.
  exact_ops.
  assert (E1 : Qltb (inject_Z 0) w = true) by (apply Qltb_true; exact Hw).
  assert (E2 : Qltb (inject_Z 0) h = true) by (apply Qltb_true; exact Hh).
  assert (E3 : Qltb (inject_Z 1920) w = false) by (apply Qltb_false; exact Hw').
  assert (E4 : Qltb (inject_Z 1080) h = false) by (apply Qltb_false; exact Hh').
  rewrite E1, E2. cbn [orb andb]. rewrite E3, E4. cbn [orb].
  split; reflexivity.
Qed.

Lemma sizeForQuality_bounds (s d w h : Q) :
  0 < w -> w <= 1920 -> 0 < h -> h <= 1080 -> 0 < d ->
  0 <= bitratePerPixelForScore s ->
  let v := bitratePerPixelForScore s * (w * h) * (3 # 100) in
  let size := calculateTargetSizeForQuality s d (Some w) (Some h) in
  0 <= v /\
  exactSizeMB v d <= size /\ size <= exactSizeMB v d + (1 # 10) /\ 1 # 10 <= size.
Proof.
  intros Hw Hw' Hh Hh' Hd Hb v size. subst size.
  assert (Hv : 0 <= v).
  { unfold v. assert (0 <= w * h) by nra.
    set (b := bitratePerPixelForScore s) in *. clearbody b.
    set (p := w * h) in *. clearbody p. nra. }
  split; [ exact Hv | ].
  unfold calculateTargetSizeForQuality.
  destruct (assumedOutputSize_within_1080p w h Hw Hw' Hh Hh') as [-> _].
  exact_ops.
  set (X := (bitratePerPixelForScore s * (w * h) * inject_Z 30 / inject_Z 1000 + inject_Z 128) /
     (inject_Z 95 / inject_Z 100) * d / inject_Z 8192).
  assert (EX : X == exactSizeMB v d).
  { unfold X, exactSizeMB, v. literals. field. }
  assert (HX : 0 <= exactSizeMB v d).
  { unfold exactSizeMB. clearbody v. nra. }
  destruct (Qceil'_bounds (X * inject_Z 10)) as [C1 C2].
  rewrite <- EX in *. literals.
  set (c := Qceil' (X * (10 # 1))) in *. clearbody c. clearbody X.
  assert (Hdiv : c / (10 # 1) == c * (1 # 10)) by (field).
  split_minmax; rewrite ?Hdiv in *; repeat split; lra.
Qed.

Lemma forward_bounds (v d size tol : Q) :
  0 <= v -> 10 <= d -> 1 # 24 <= tol ->
  1900 <= d * ((54 # 10) + tol * v) ->
  exactSizeMB v d <= size -> size <= exactSizeMB v d + (1 # 10) ->
  exists vid : Z,
    calculateBitrate size d 128 = Ok (inject_Z vid)
    /\ v * (1 - tol) <= inject_Z vid /\ inject_Z vid <= v + (64 # 10).
Proof.
  intros Hv Hd Htol Hlong Hlo Hhi.
  assert (Hd0 : 0 < d) by lra.
  assert (Hx : 1 # 10 <= exactSizeMB v d).
  { unfold exactSizeMB. nra. }
  assert (Hsize : 0 < size) by lra.
  rewrite calculateBitrate_eq by assumption.
  destruct (rate_at_resolved_size v d size Hv Hd Hlo Hhi) as [YU YL].
  set (Y := (adjustedTargetSizeMB size * inject_Z 8192 / d - 128)
            * (inject_Z 95 / inject_Z 100)) in *.
  exists (Qfloor Y). split; [ reflexivity | ].
  destruct (Qfloor'_bounds Y) as [F1 F2]. unfold Qfloor' in F1, F2.
  set (u := / d) in *.
  assert (Hu : 0 < u) by (apply Qinv_lt_0_compat; exact Hd0).
  assert (Hu10 : u <= 1 # 10).
  { unfold u. change (1 # 10) with (/ 10). apply Qinv_antitone; lra. }
  assert (El : d * ((54 # 10) + tol * v) * u == (54 # 10) + tol * v).
  { unfold u. field. lra. }
  pose proof (scale_le _ _ u Hu Hlong) as Hlong'. rewrite El in Hlong'.
  set (n := inject_Z (Qfloor Y)) in *. clearbody n Y u.
  split; [ destruct YL; nra | lra ].
Qed.

Lemma band_score_near (s : Z) (y : Q) :
  (28 <= s <= 92)%Z ->
  inject_Z s - (5 # 2) <= y -> y < inject_Z s + (5 # 2) ->
  withinTwo (inject_Z s) (Some (clampPercent y)) = true.
Proof.
  intros Hs Hlo Hhi.
  unfold withinTwo, clampPercent. exact_ops.
  destruct (Qround'_bounds y) as [R1 R2].
  destruct (Qround'_integer y) as [n En]. rewrite En in *.
  destruct (integer_within n (s - 2) (s + 2) y) as [I1 I2]; try assumption.
  { unfold Z.sub. rewrite inject_Z_plus. change (inject_Z (- (2))) with (-2 # 1). lra. }
  { rewrite inject_Z_plus. change (inject_Z 2) with (2 # 1). lra. }
  unfold Z.sub in I1. rewrite inject_Z_plus in I1, I2.
  change (inject_Z (- (2))) with (-2 # 1) in I1. change (inject_Z 2) with (2 # 1) in I2.
  assert (B1 : 28 <= inject_Z s) by (change 28 with (inject_Z 28); rewrite <- Zle_Qle; lia).
  assert (B2 : inject_Z s <= 92) by (change 92 with (inject_Z 92); rewrite <- Zle_Qle; lia).
  literals.
  set (sq := inject_Z s) in *. set (nq := inject_Z n) in *. clearbody sq nq.
  apply andb_true_iff. split; apply Qleb_true; split_minmax; lra.
Qed.

Ltac band_bounds :=
  intros; unfold qualityBands; exact_ops; literals; const_div;
  split_Qleb; cbn [fst]; split_minmax; split; lra.

Lemma bands_near_30 (bpp : Q) :
  11 # 400 <= bpp -> bpp <= 336 # 10000 ->
  30 - (5 # 2) <= fst (fst (qualityBands bpp))
  /\ fst (fst (qualityBands bpp)) < 30 + (5 # 2).
Proof. band_bounds. Qed.

Lemma bands_near_50 (bpp : Q) :
  5625 # 100000 <= bpp -> bpp <= 648 # 10000 ->
  50 - (5 # 2) <= fst (fst (qualityBands bpp))
  /\ fst (fst (qualityBands bpp)) < 50 + (5 # 2).
Proof. band_bounds. Qed.

Lemma bands_near_70 (bpp : Q) :
  95 # 1000 <= bpp -> bpp <= 105 # 1000 ->
  70 - (5 # 2) <= fst (fst (qualityBands bpp))
  /\ fst (fst (qualityBands bpp)) < 70 + (5 # 2).
Proof. band_bounds. Qed.

Lemma bands_near_90 (bpp : Q) :
  14375 # 100000 <= bpp -> bpp <= 165 # 1000 ->
  90 - (5 # 2) <= fst (fst (qualityBands bpp))
  /\ fst (fst (qualityBands bpp)) < 90 + (5 # 2).
Proof. band_bounds. Qed.

Lemma roundTripScore_eq (s d w h vid : Q) :
  0 < w -> w <= 1920 -> 0 < h -> h <= 1080 ->
  calculateBitrate (calculateTargetSizeForQuality s d (Some w) (Some h)) d 128
  = Ok vid ->
  roundTripScore s d (Some w) (Some h)
  = Some (clampPercent
            (fst (fst (qualityBands (vid * inject_Z 1000 / (w * h * inject_Z 30)))))).
Proof.
  intros Hw Hw' Hh Hh' Hvid.
  unfold roundTripScore, estimateQuality.
  change (audioBitrateKbpsOf false false) with (128 : Q).
  rewrite Hvid.
  destruct (assumedOutputSize_within_1080p w h Hw Hw' Hh Hh') as [_ ->].
  exact_ops.
  destruct (qualityBands (vid * inject_Z 1000 / (w * h * inject_Z 30)))
    as [[y l] z].
  reflexivity.
Qed.

(** The per-score data: bits per pixel, and the relative tolerances below
    and above that keep the rounded score within 2. *)
Lemma round_trip_core (s : Z) (b tol bppLo bppHi d w h : Q) :
  (28 <= s <= 92)%Z ->
  bitratePerPixelForScore (inject_Z s) == b ->
  0 < b -> 1 # 24 <= tol -> tol <= 1 ->
  75 # 1000000 <= tol * b * (3 # 100) ->
  bppLo <= b * (1 - tol) ->
  b + (64 # 18000) <= bppHi ->
  (forall bpp, bppLo <= bpp -> bpp <= bppHi ->
     inject_Z s - (5 # 2) <= fst (fst (qualityBands bpp))
     /\ fst (fst (qualityBands bpp)) < inject_Z s + (5 # 2)) ->
  0 < w -> w <= 1920 -> 0 < h -> h <= 1080 ->
  60000 <= w * h ->
  1900 <= d * ((54 # 10) + (75 # 1000000) * (w * h)) ->
  withinTwo (inject_Z s) (roundTripScore (inject_Z s) d (Some w) (Some h)) = true.
Proof.
  intros Hs Eb Hb Htol Htol1 Hrate HbLo HbHi Hband Hw Hw' Hh Hh' Hpix Hlong.
  assert (Hpmax : w * h <= 2073600) by nra.
  set (P := w * h) in *.
  assert (Hd : 10 <= d).
  { clearbody P. nra. }
  assert (Hd0 : 0 < d) by lra.
  assert (Hbs : 0 <= bitratePerPixelForScore (inject_Z s)) by (rewrite Eb; lra).
  destruct (sizeForQuality_bounds (inject_Z s) d w h Hw Hw' Hh Hh' Hd0 Hbs)
    as (Hv & S1 & S2 & _).
  fold P in Hv, S1, S2.
  set (size := calculateTargetSizeForQuality (inject_Z s) d (Some w) (Some h)) in *.
  set (v := bitratePerPixelForScore (inject_Z s) * P * (3 # 100)) in *.
  assert (Ev : v == b * P * (3 # 100)) by (unfold v; rewrite Eb; reflexivity).
  assert (Hlong' : 1900 <= d * ((54 # 10) + tol * v)).
  { rewrite Ev. clearbody P. clear - Hlong Hrate Hd0 Hpix.
    assert (0 <= P) by lra.
    assert ((75 # 1000000) * P <= tol * (b * P * (3 # 100))) by nra.
    nra. }
  destruct (forward_bounds v d size tol Hv Hd Htol Hlong' S1 S2)
    as (vid & Hvid & V1 & V2).
  rewrite (roundTripScore_eq (inject_Z s) d w h (inject_Z vid) Hw Hw' Hh Hh' Hvid).
  fold P.
  set (bpp := inject_Z vid * inject_Z 1000 / (P * inject_Z 30)).
  apply band_score_near; [ exact Hs | | ]; apply Hband.
  all: set (q := / P).
  all: assert (Hq : 0 < q) by (apply Qinv_lt_0_compat; lra).
  all: assert (Hq6 : q <= 1 # 60000)
    by (unfold q; change (1 # 60000) with (/ 60000); apply Qinv_antitone; lra).
  all: assert (Ebpp : bpp == inject_Z vid * q * (1000 # 30))
    by (unfold bpp, q; literals; field; lra).
  all: assert (Evq : v * q == b * (3 # 100))
    by (rewrite Ev; unfold q; field; lra).
  all: pose proof (scale_le _ _ q Hq V1) as V1'.
  all: pose proof (scale_le _ _ q Hq V2) as V2'.
  all: rewrite Ebpp.
  all: set (n := inject_Z vid) in *; clearbody n q v P; nra.
Qed.

(** C3, amended: for scores 30, 50, 70 and 90 and input dimensions [w x h]
    no larger than 1920x1080 with at least 60,000 pixels, the round trip
    reproduces the score within 2 whenever the duration [d] satisfies
    [d * (5.4 + 0.000075 * w * h) >= 1900] (at 1920x1080: from 12 seconds
    on). Exact arithmetic. *)
Theorem round_trip_within_two (s : Z) (d w h : Q) :
  s = 30%Z \/ s = 50%Z \/ s = 70%Z \/ s = 90%Z ->
  0 < w -> w <= 1920 -> 0 < h -> h <= 1080 ->
  60000 <= w * h ->
  1900 <= d * ((54 # 10) + (75 # 1000000) * (w * h)) ->
  withinTwo (inject_Z s) (roundTripScore (inject_Z s) d (Some w) (Some h)) = true.
Proof.
  intros [-> | [-> | [-> | ->]]].
  - apply round_trip_core
      with (b := 3 # 100) (tol := 1 # 12) (bppLo := 11 # 400) (bppHi := 336 # 10000);
      try lia; try reflexivity; try discriminate.
    intros bpp. apply bands_near_30.
  - apply round_trip_core
      with (b := 6 # 100) (tol := 1 # 16) (bppLo := 5625 # 100000)
           (bppHi := 648 # 10000);
      try lia; try reflexivity; try discriminate.
    intros bpp. apply bands_near_50.
  - apply round_trip_core
      with (b := 10 # 100) (tol := 1 # 20) (bppLo := 95 # 1000) (bppHi := 105 # 1000);
      try lia; try reflexivity; try discriminate.
    intros bpp. apply bands_near_70.
  - apply round_trip_core
      with (b := 15 # 100) (tol := 1 # 24) (bppLo := 14375 # 100000)
           (bppHi := 165 # 1000);
      try lia; try reflexivity; try discriminate.
    intros bpp. apply bands_near_90.
Qed.

Lemma round_trip_within_two_witness :
  withinTwo (inject_Z 70) (roundTripScore (inject_Z 70) 60 (Some 1280) (Some 720))
  = true.
Proof.
  apply (round_trip_within_two 70 60 1280 720);
    first [ right; right; left; reflexivity | reflexivity | discriminate ].
Defined.

(** With unknown input dimensions both directions assume 1920x1080. *)
Lemma round_trip_unknown_dimensions (s d : Q) :
  roundTripScore s d None None = roundTripScore s d (Some 1920) (Some 1080).
Proof. reflexivity. Qed.

(** The same round trip in binary64, at 1920x1080 and every whole number
    of seconds from 12 to 600. *)
Example round_trip_binary64_1080p :
  forallb
    (fun d =>
       forallb (fun s => roundTripHolds (A:=float) s d (Some 1920%Z) (Some 1080%Z))
         [30; 50; 70; 90]%Z)
    (map Z.of_nat (seq 12 589))
  = true.
Proof. vm_compute. reflexivity. Qed.


(** ** Audio flags *)

Section AudioPrecedence.
Context {A : Type} `{JsNum A}.
Variable toFixed1 : A -> string.

(** C10: when [removeAudio] is set the audio bitrate is 0 whatever
    [optimizeAudio] is, so the quality estimate, the whole software
    transcode (bitrate check, FFmpeg arguments, outcome) and the whole
    hardware transcode (conversion options, outcome) are those of
    [removeAudio] alone. Holds for any number model. *)
Theorem removeAudio_takes_precedence :
  (forall optimizeAudio, audioBitrateKbpsOf true optimizeAudio = ofZ 0)
  /\ (forall targetSizeMB durationSeconds inputWidth inputHeight outputResolution,
        estimateQuality targetSizeMB durationSeconds inputWidth inputHeight
          true true outputResolution
        = estimateQuality targetSizeMB durationSeconds inputWidth inputHeight
            true false outputResolution)
  /\ (forall hook env file targetSizeMB outputResolution inputWidth inputHeight,
        transcode toFixed1 hook
          (removingAudio file targetSizeMB true outputResolution
             inputWidth inputHeight) env
        = transcode toFixed1 hook
            (removingAudio file targetSizeMB false outputResolution
               inputWidth inputHeight) env)
  /\ (forall env file targetSizeMB outputResolution inputWidth inputHeight,
        transcodeWithMediaBunny
          (removingAudio file targetSizeMB true outputResolution
             inputWidth inputHeight) env
        = transcodeWithMediaBunny
            (removingAudio file targetSizeMB false outputResolution
               inputWidth inputHeight) env).
Proof.
  repeat split; intros; try reflexivity.
  unfold transcodeWithMediaBunny, removingAudio. cbn.
  rewrite !andb_false_r. reflexivity.
Qed.

End AudioPrecedence.

(** ** Output validation *)

Section OutputValidation.
Context {A : Type} `{JsNum A}.
Variable toFixed1 : A -> string.

(** The [progress] that a [transcode] closure holds is the initial 0:
    [load] resets it in the update that sets [isLoaded], and no later
    [setProgress] re-creates the closure. *)
Lemma reachable_hook_progress (h : HookState (A:=A)) :
  HookReachable h -> progress h = ofZ 0.
Proof.
  intros [events ->].
  assert (Hgen : forall h0 : HookState (A:=A),
             progress h0 = ofZ 0 ->
             progress (fold_left afterEvent events h0) = ofZ 0).
  { induction events as [ | e events IH]; intros h0 H0; [ exact H0 | ].
    cbn [fold_left]. apply IH.
    destruct e; cbn [afterEvent progress]; try assumption.
    destruct (isLoaded h0); [ assumption | reflexivity ]. }
  apply Hgen. reflexivity.
Qed.

(** With a held progress under 0.95, the output is never reported as
    truncated, nor as unreadable after completion. *)
Lemma validateOutput_without_progress (p : A) (output : result string Z) :
  jleb (dec 95 100) p = false ->
  match validateOutput p output with
  | Err (OutputTruncated _) | Err OutputUnreadableAfterCompletion => False
  | _ => True
  end.
Proof.
  intros Hp. unfold validateOutput. rewrite Hp.
  destruct output as [length | readError]; [ | exact I ].
  destruct (length =? 0)%Z; [ exact I | ].
  destruct (jltb _ (ofZ 1)); exact I.
Qed.

Lemma transcode_never_reports_truncation
    (hook : HookState) (req : Request) (env : FfmpegEnv) :
  jleb (dec 95 100) (progress hook) = false ->
  match outcome (transcode toFixed1 hook req env) with
  | Some (Err (OutputTruncated _))
  | Some (Err OutputUnreadableAfterCompletion) => False
  | _ => True
  end.
Proof.
  intros Hp. unfold transcode.
  destruct (negb (ffmpegPresent hook)); [ exact I | ].
  destruct (negb (isLoaded hook)); [ exact I | ].
  destruct (getVideoDuration hook (reqFile req) (envMetadata env) (envProbe env))
    as [probeCalls [duration | reason]]; [ | exact I ].
  destruct (calculateBitrate _ _ _) as [targetBitrate | e]; [ | exact I ].
  destruct (jltb targetBitrate (ofZ 100)).
  { unfold targetTooSmall. destruct (validateTargetSize _ _); exact I. }
  assert (Hclass : forall (j : EncodeJob (A:=A)) (e : Thrown),
             match classifyExecError j e with
             | OutputTruncated _ | OutputUnreadableAfterCompletion => False
             | _ => True
             end).
  { intros j e. unfold classifyExecError.
    destruct (_ || _); [ exact I | ]. destruct (_ || _); exact I. }
  destruct (awaitExec _ _ _) as [j [ | e | ]]; cbn [outcome failed].
  - destruct (completionCheck _ _ _ _ _) as [e | ]; cbn [outcome failed].
    + apply Hclass.
    + pose proof (validateOutput_without_progress (progress hook) (envOutput env) Hp)
        as Hv.
      destruct (validateOutput (progress hook) (envOutput env)) as [bytes | f];
        cbn [outcome]; [ exact I | exact Hv ].
  - apply Hclass.
  - exact I.
Qed.

End OutputValidation.

(** C7 fails on the code. The check for a truncated output compares the
    [progress] held by the [transcode] closure with 0.95, and that is the
    progress of the render in which [isLoaded] became true, always 0
    ([load] resets it in the same update, and the closure's dependency
    list leaves [progress] out): whatever progress the encode reported,
    [transcode] never raises the truncated-output error, nor the
    unreadable-after-completion one. In [truncatedOutputEnv] the log
    drives the reported progress to 0.99 and the completion marker sets it
    to 1, the encode resolves, and the 500,000-byte output is reported by
    the generic too-small error. Exact arithmetic and binary64 agree. *)
Theorem truncated_output_is_reported_as_too_small :
  (forall (toFixed1 : Q -> string) (hook : HookState) (req : Request)
          (env : FfmpegEnv),
      HookReachable hook ->
      progress hook = 0
      /\ match outcome (transcode toFixed1 hook req env) with
         | Some (Err (OutputTruncated _))
         | Some (Err OutputUnreadableAfterCompletion) => False
         | _ => True
         end)
  /\ (forall (toFixed1 : float -> string) (hook : HookState) (req : Request)
             (env : FfmpegEnv),
         HookReachable hook ->
         progress hook = ofZ 0
         /\ match outcome (transcode toFixed1 hook req env) with
            | Some (Err (OutputTruncated _))
            | Some (Err OutputUnreadableAfterCompletion) => False
            | _ => True
            end)
  /\ HookReachable (A:=Q) loadedHook
  /\ HookReachable (A:=float) loadedHook
  /\ hookProgress (fst (awaitExec (90 : Q) (envEvents truncatedOutputEnv) (newJob 0)))
     = 1
  /\ (forall toFixed1 : Q -> string,
         outcome (transcode toFixed1 loadedHook (sampleRequest 8) truncatedOutputEnv)
         = Some (Err (OutputTooSmall (inject_Z 500000 / 1024 / 1024))))
  /\ (forall toFixed1 : float -> string,
         outcome (transcode toFixed1 loadedHook (sampleRequest (ofZ 8))
                    truncatedOutputEnv)
         = Some (Err (OutputTooSmall (ofZ 500000 / ofZ 1024 / ofZ 1024)%js))).
Proof.
  assert (Hloaded : forall (A : Type) (N : JsNum A), HookReachable (A:=A) loadedHook).
  { intros A N. exists [InstanceCreated; LoadCompleted]. reflexivity. }
  split; [ | split; [ | split; [ | split; [ | split; [ | split ] ] ] ] ].
  - intros toFixed1 hook req env Hr.
    pose proof (reachable_hook_progress hook Hr) as Hp.
    split; [ exact Hp | ].
    apply transcode_never_reports_truncation. rewrite Hp. reflexivity.
  - intros toFixed1 hook req env Hr.
    pose proof (reachable_hook_progress hook Hr) as Hp.
    split; [ exact Hp | ].
    apply transcode_never_reports_truncation. rewrite Hp. reflexivity.
  - apply Hloaded.
  - apply Hloaded.
  - vm_compute. reflexivity.
  - intros toFixed1. vm_compute. reflexivity.
  - intros toFixed1. vm_compute. reflexivity.
Qed.

(** ** Infeasible targets *)

Section Infeasible.
Context {A : Type} `{JsNum A}.
Variable toFixed1 : A -> string.

(** [validateTargetSize] succeeds wherever [calculateBitrate] does. *)
Lemma validateTargetSize_defined (targetSizeMB duration audio bitrate : A) :
  calculateBitrate targetSizeMB duration audio = Ok bitrate ->
  exists isValid,
    validateTargetSize duration targetSizeMB
    = Ok {| valid := isValid;
            minSizeMB := calculateMinimumSize duration;
            recommendedSizeMB := getRecommendedTargetSize duration |}.
Proof.
  unfold validateTargetSize, calculateBitrate.
  destruct (jleb duration (ofZ 0)); [ discriminate | ].
  destruct (jleb targetSizeMB (ofZ 0)); [ discriminate | ].
  intros _. eexists. reflexivity.
Qed.

(** The probe makes no engine call when the browser reads the duration,
    and otherwise works on its own file only. *)
Lemma getVideoDuration_calls (hook : HookState) (file : File)
    (metadata : MetadataOutcome) (probe : ProbeEnv) :
  Forall (probeCall file) (fst (getVideoDuration hook file metadata probe))
  /\ (forall duration : A,
        browserDuration metadata = Ok duration ->
        getVideoDuration hook file metadata probe = ([], Ok duration)).
Proof.
  unfold getVideoDuration. split.
  - destruct (browserDuration metadata) as [d | e]; [ constructor | ].
    destruct (negb (ffmpegPresent hook) || negb (isLoaded hook));
      [ constructor | ].
    unfold probeDuration.
    assert (Hw : probeCall (A:=A) file (WriteFile probeFileName (fileSize file)))
      by (left; reflexivity).
    assert (Hx : probeCall (A:=A) file (Exec probeArgs))
      by (right; left; reflexivity).
    assert (Hd : probeCall (A:=A) file (DeleteFile probeFileName))
      by (right; right; reflexivity).
    destruct (probeFetch probe); [ constructor | ].
    destruct (probeWrite probe); [ repeat constructor; assumption | ].
    destruct (extractedDuration _).
    + destruct (probeDelete probe 0%nat); cbn; repeat constructor; assumption.
    + destruct (JsString.matchDuration _).
      * destruct (probeDelete probe 0%nat);
          [ cbn; repeat constructor; assumption | ].
        destruct (jltb (ofZ 0) (durationOfMatch _));
          [ cbn; repeat constructor; assumption | ].
        destruct (probeDelete probe 1%nat); cbn; repeat constructor; assumption.
      * destruct (probeDelete probe 0%nat); cbn; repeat constructor; assumption.
  - intros duration ->. reflexivity.
Qed.

(** The software path: a bitrate under 100 kbps ends [transcode] before
    the input file is written or an encode started, with the unclamped
    bitrate and the two alternative sizes in the error; the engine calls
    made by then are those of the duration probe. *)
Lemma transcode_rejects_low_bitrate
    (hook : HookState) (req : Request) (env : FfmpegEnv)
    (probeCalls : list EngineCall) (duration bitrate : A) :
  ffmpegPresent hook = true -> isLoaded hook = true ->
  getVideoDuration hook (reqFile req) (envMetadata env) (envProbe env)
  = (probeCalls, Ok duration) ->
  calculateBitrate (reqTargetSizeMB req) duration
    (audioBitrateKbpsOf (reqRemoveAudio req) (reqOptimizeAudio req))
  = Ok bitrate ->
  jltb bitrate (ofZ 100) = true ->
  transcode toFixed1 hook req env
  = {| engineCalls := probeCalls;
       outcome :=
         Some (Err (TargetTooSmall (reqTargetSizeMB req) duration bitrate
                      (calculateMinimumSize duration)
                      (getRecommendedTargetSize duration)));
       cleanupWarning := false |}.
Proof.
  intros Hp Hl Hd Hb Hlow.
  unfold transcode. rewrite Hp, Hl, Hd. cbn [negb]. rewrite Hb, Hlow.
  unfold failed, targetTooSmall.
  destruct (validateTargetSize_defined _ _ _ _ Hb) as [v ->].
  reflexivity.
Qed.

(** The hardware path: a conversion that MediaBunny accepts is set up with
    the bitrate of [calculateVideoBitrate] and executed, whatever that
    bitrate is. *)
Lemma mediaBunny_runs_accepted_conversion (req : Request) (env : MediaBunnyEnv)
    (duration : A) (track : Dimensions A) :
  mbDuration env = Ok duration -> mbVideoTrack env = Some track ->
  mbIsValid env = true ->
  mbExecuted (transcodeWithMediaBunny req env) = true
  /\ exists config : ConversionConfig,
       mbConfig (transcodeWithMediaBunny req env) = Some config
       /\ videoBitrate config
          = calculateVideoBitrate (reqTargetSizeMB req) duration
              (if reqRemoveAudio req then ofZ 0
               else if reqOptimizeAudio req then ofZ 96000 else ofZ 128000).
Proof.
  intros Hd Ht Hv. unfold transcodeWithMediaBunny. rewrite Hd, Ht, Hv.
  cbn [negb].
  destruct (mbExecute env); [ cbn; eauto | ].
  destruct (mbOutputBytes env =? 0)%Z; [ cbn; eauto | ].
  match goal with |- context [if ?c then _ else _] => destruct c end;
    cbn; eauto.
Qed.

End Infeasible.

(** The hardware path: the bitrate handed to the encoder is never under
    100000 bits per second. *)
Lemma calculateVideoBitrate_floor (targetSizeMB durationSeconds audioBitrateBps : Q) :
  100000 <= calculateVideoBitrate targetSizeMB durationSeconds audioBitrateBps.
Proof.
  unfold calculateVideoBitrate. exact_ops.
  change 100000 with (Qfloor' (inject_Z 100000)).
  apply Qfloor'_mono. split_minmax; lra.
Qed.

(** C4, as stated, fails on the hardware path: for a 0.3 MB target and a
    10-second file the software formula gives -44 kbps, under the floor,
    yet the hardware transcoder raises the bitrate to 100000 bits per
    second, runs the conversion and reports no error. Exact arithmetic and
    binary64 agree. *)
Lemma hardware_path_clamps_low_bitrate :
  calculateBitrate (3 # 10) 10 128 = Ok (-44 : Q)
  /\ transcodeWithMediaBunny (sampleRequest (3 # 10)) shortClipEnv
     = {| mbConfig :=
            Some {| videoWidth := 1920; videoHeight := 1080;
                    videoBitrate := 100000;
                    audioConfig := AudioEncode 128000 2 |};
          mbExecuted := true;
          mbResult := Some 200000%Z;
          mbFallbackReason := None;
          mbError := None |}
  /\ transcodeWithMediaBunny (sampleRequest (dec 3 10 : float)) shortClipEnv
     = {| mbConfig :=
            Some {| videoWidth := ofZ 1920; videoHeight := ofZ 1080;
                    videoBitrate := ofZ 100000;
                    audioConfig := AudioEncode (ofZ 128000) 2 |};
          mbExecuted := true;
          mbResult := Some 200000%Z;
          mbFallbackReason := None;
          mbError := None |}.
Proof.
  split; [ vm_compute; reflexivity | ].
  split; vm_compute; reflexivity.
Qed.

(** C4, amended. On the software (FFmpeg) path, in any number model, a
    computed bitrate under 100 kbps makes [transcode] fail with an error
    that carries the unclamped bitrate and the minimum and recommended
    sizes, before the input file is written or an encode started: the only
    engine calls made by then are those of the duration probe (write, run
    and delete [probe-input.mp4]), and there is none when the browser read
    the duration itself. On the hardware (WebCodecs) path no such error is
    raised: every conversion that MediaBunny accepts is set up with the
    bitrate of [calculateVideoBitrate] and executed, and that bitrate is
    [Math.floor(Math.max(100000, ...))], at least 100000 bits per second
    in exact arithmetic. *)
Theorem low_bitrate_handling :
  (forall (A : Type) (N : JsNum A) (toFixed1 : A -> string)
          (hook : HookState) (req : Request) (env : FfmpegEnv)
          (probeCalls : list EngineCall) (duration bitrate : A),
      ffmpegPresent hook = true -> isLoaded hook = true ->
      getVideoDuration hook (reqFile req) (envMetadata env) (envProbe env)
      = (probeCalls, Ok duration) ->
      calculateBitrate (reqTargetSizeMB req) duration
        (audioBitrateKbpsOf (reqRemoveAudio req) (reqOptimizeAudio req))
      = Ok bitrate ->
      jltb bitrate (ofZ 100) = true ->
      transcode toFixed1 hook req env
      = {| engineCalls := probeCalls;
           outcome :=
             Some (Err (TargetTooSmall (reqTargetSizeMB req) duration bitrate
                          (calculateMinimumSize duration)
                          (getRecommendedTargetSize duration)));
           cleanupWarning := false |}
      /\ Forall (probeCall (reqFile req)) probeCalls
      /\ (forall d : A,
            browserDuration (envMetadata env) = Ok d -> probeCalls = []))
  /\ (forall (A : Type) (N : JsNum A) (req : Request) (env : MediaBunnyEnv)
             (duration : A) (track : Dimensions A),
         mbDuration env = Ok duration -> mbVideoTrack env = Some track ->
         mbIsValid env = true ->
         mbExecuted (transcodeWithMediaBunny req env) = true
         /\ exists config : ConversionConfig,
              mbConfig (transcodeWithMediaBunny req env) = Some config
              /\ videoBitrate config
                 = calculateVideoBitrate (reqTargetSizeMB req) duration
                     (if reqRemoveAudio req then ofZ 0
                      else if reqOptimizeAudio req then ofZ 96000
                      else ofZ 128000))
  /\ (forall (A : Type) (N : JsNum A) (t d a : A),
         calculateVideoBitrate t d a
         = jfloor (jmax (ofZ 100000)
                     (jmul (jmul (jsub (jdiv (jmul (jmul (adjustedTargetSizeMB t)
                                                      (ofZ 8192)) (ofZ 1000)) d) a)
                              (dec 95 100))
                        (dec 55 100))))
  /\ (forall t d a : Q, 100000 <= calculateVideoBitrate t d a).
Proof.
  split; [ | split; [ | split ] ].
  - intros A N toFixed1 hook req env probeCalls duration bitrate Hp Hl Hd Hb Hlow.
    split; [ apply transcode_rejects_low_bitrate; assumption | ].
    destruct (getVideoDuration_calls hook (reqFile req) (envMetadata env)
                (envProbe env)) as [Hcalls Hbrowser].
    rewrite Hd in Hcalls. cbn [fst] in Hcalls.
    split; [ exact Hcalls | ].
    intros d Hbd. rewrite (Hbrowser d Hbd) in Hd. congruence.
  - intros A N req env duration track.
    apply mediaBunny_runs_accepted_conversion.
  - intros A N t d a. reflexivity.
  - exact calculateVideoBitrate_floor.
Qed.

Lemma low_bitrate_handling_witness :
  exists (probeCalls : list EngineCall) (duration bitrate : Q),
    getVideoDuration (A:=Q) loadedHook sampleFile
      (envMetadata undecodableClipEnv) (envProbe (A:=Q) undecodableClipEnv)
    = (probeCalls, Ok duration)
    /\ probeCalls
       = [WriteFile probeFileName 52428800; Exec probeArgs;
          DeleteFile probeFileName]
    /\ duration == 10 /\ bitrate == -44
    /\ transcode toFixed1_exact loadedHook (sampleRequest (3 # 10))
         undecodableClipEnv
       = {| engineCalls := probeCalls;
            outcome :=
              Some (Err (TargetTooSmall (3 # 10) duration bitrate
                           (calculateMinimumSize duration)
                           (getRecommendedTargetSize duration)));
            cleanupWarning := false |}.
Proof.
  eexists _, _, _.
  split; [ lazy; reflexivity | ].
  split; [ reflexivity | ].
  split; [ reflexivity | ].
  split; [ | apply (proj1 low_bitrate_handling Q JsNum_Q toFixed1_exact loadedHook
                      (sampleRequest (3 # 10)) undecodableClipEnv);
             lazy; reflexivity ].
  reflexivity.
Defined.

(** ** Stalls, aborts and completion *)

Example matchFrame_progress_line :
  JsString.matchFrame
    "frame=  120 fps= 30 q=28.0 size=     256kB time=00:00:02.00 bitrate=1048.6kbits/s speed=2x"
  = Some 120%Z.
Proof. reflexivity. Qed.

Example matchTime_progress_line :
  JsString.matchTime
    "frame=  120 fps= 30 q=28.0 size=     256kB time=00:00:02.00 bitrate=1048.6kbits/s speed=2x"
  = Some (0, 0, 2, 0)%Z.
Proof. reflexivity. Qed.

Example toFixed1_exact_samples :
  toFixed1_exact (3 # 2) = "1.5"%string
  /\ toFixed1_exact (549 # 10) = "54.9"%string
  /\ toFixed1_exact (1 # 4) = "0.3"%string.
Proof. repeat split; reflexivity. Qed.

Section Completion.
Context {A : Type} `{JsNum A}.
Variable toFixed1 : A -> string.

(** The liveness poll leaves a job alone until more than three minutes
    have passed since the last progress, and never after completion. *)
Lemma livenessPoll_quiet (now : Z) (j : EncodeJob (A:=A)) :
  (now - lastProgressUpdate j <= STALL_THRESHOLD)%Z \/ encodingCompleted j = true ->
  livenessPoll now j = (j, None).
Proof.
  unfold livenessPoll. intros [Hq | Hc].
  - destruct (Z.ltb_spec STALL_THRESHOLD (now - lastProgressUpdate j));
      [ lia | reflexivity ].
  - rewrite Hc, andb_false_r. reflexivity.
Qed.

(** The liveness poll rejects a job that is neither completed nor timed
    out once more than three minutes have passed since the last
    progress. *)
Lemma livenessPoll_stalled (now : Z) (j : EncodeJob (A:=A)) :
  (STALL_THRESHOLD < now - lastProgressUpdate j)%Z ->
  encodingCompleted j = false -> encodingTimedOut j = false ->
  livenessPoll now j
  = (setTimedOut j,
     Some (ThrownError
             (stallMessage ((now - lastProgressUpdate j + 30000) / 60000)))).
Proof.
  unfold livenessPoll. intros Hs Hc Ht.
  destruct (Z.ltb_spec STALL_THRESHOLD (now - lastProgressUpdate j));
    [ | lia ].
  rewrite Hc, Ht. reflexivity.
Qed.

(** An abort or out-of-memory signal on a job whose completion marker was
    seen, or whose closure holds a progress of at least 0.95, does not
    fail the resolved encode: it continues with the cleanup warning. *)
Lemma abort_after_completion_continues
    (file : File) (duration progress : A) (j : EncodeJob (A:=A)) :
  oomDetected j || abortedDetected j = true ->
  encodingCompleted j = true \/ jleb (dec 95 100) progress = true ->
  completionCheck toFixed1 file duration progress j = None
  /\ completedWithWarning progress j = true.
Proof.
  intros Habort Hdone.
  assert (Hlikely : encodingLikelyCompleted progress j = true).
  { unfold encodingLikelyCompleted.
    destruct Hdone as [-> | ->]; [ reflexivity | ].
    rewrite orb_true_r. reflexivity. }
  unfold completionCheck, completedWithWarning.
  rewrite Habort, Hlikely. split; reflexivity.
Qed.

End Completion.

(** *** Searching a text around a printed number *)

Section StringFacts.
Import JsString.
Local Open Scope string_scope.

Lemma includes_app_r (a b n : string) :
  includes b n = true -> includes (a ++ b) n = true.
Proof.
  intros Hb. induction a as [ | x a IH]; [ exact Hb | ].
  cbn [append]. cbn [includes]. rewrite IH.
  destruct (stripPrefix n (String x (a ++ b))); reflexivity.
Qed.

Lemma toLowerCase_app (a b : string) :
  toLowerCase (a ++ b) = toLowerCase a ++ toLowerCase b.
Proof. induction a as [ | x a IH]; cbn; [ | rewrite IH ]; reflexivity. Qed.

Lemma includes_unfold (s n : string) :
  includes s n
  = startsWith s n || match s with EmptyString => false | String _ s' => includes s' n end.
Proof. destruct s; cbn [includes]; unfold startsWith; destruct (stripPrefix n _); reflexivity. Qed.

Lemma startsWith_before_separator (n a b : string) (c : ascii) :
  occurs c n = false ->
  startsWith (a ++ String c b) n = startsWith a n.
Proof.
  unfold startsWith. revert a. induction n as [ | x n IH]; intros a Hc.
  - destruct a; reflexivity.
  - cbn [occurs] in Hc. apply orb_false_iff in Hc. destruct Hc as [Hx Hn].
    destruct a as [ | y a]; cbn [append stripPrefix].
    + rewrite Ascii.eqb_sym, Hx. reflexivity.
    + destruct (Ascii.eqb x y); [ apply IH; exact Hn | reflexivity ].
Qed.

Lemma includes_across_separator (n a b : string) (c : ascii) :
  n <> "" -> occurs c n = false ->
  includes (a ++ String c b) n = includes a n || includes b n.
Proof.
  intros Hne Hc.
  assert (Hsep : includes (String c b) n = includes b n).
  { rewrite includes_unfold.
    change (String c b) with ("" ++ String c b) at 1.
    rewrite startsWith_before_separator by exact Hc.
    destruct n; [ congruence | reflexivity ]. }
  induction a as [ | y a IH].
  - cbn [append]. rewrite Hsep.
    destruct n; [ congruence | reflexivity ].
  - cbn [append]. rewrite (includes_unfold (String y (a ++ String c b))).
    rewrite (includes_unfold (String y a)).
    change (String y (a ++ String c b)) with (String y a ++ String c b).
    rewrite startsWith_before_separator by exact Hc.
    rewrite IH. rewrite orb_assoc. reflexivity.
Qed.

Lemma includes_after_numeric (n d b : string) :
  n <> "" -> allChars (fun c => negb (occurs c n)) d = true ->
  includes (d ++ b) n = includes b n.
Proof.
  intros Hne. induction d as [ | c d IH]; intros Hd; [ reflexivity | ].
  cbn [allChars] in Hd. apply andb_true_iff in Hd. destruct Hd as [Hc Hd].
  apply negb_true_iff in Hc.
  change (String c d ++ b) with ("" ++ String c (d ++ b)).
  rewrite includes_across_separator by assumption.
  rewrite IH by exact Hd.
  destruct n; [ congruence | reflexivity ].
Qed.

Lemma includes_around_numeric (n a d b : string) :
  n <> "" -> d <> "" -> allChars (fun c => negb (occurs c n)) d = true ->
  includes (a ++ d ++ b) n = includes a n || includes b n.
Proof.
  intros Hne Hd Hall. destruct d as [ | c d]; [ congruence | ].
  cbn [allChars] in Hall. apply andb_true_iff in Hall. destruct Hall as [Hc Hall].
  apply negb_true_iff in Hc.
  change (a ++ String c d ++ b) with (a ++ String c (d ++ b)).
  rewrite includes_across_separator by assumption.
  rewrite includes_after_numeric by assumption. reflexivity.
Qed.

Lemma allChars_weaken (p q : ascii -> bool) (s : string) :
  (forall c, p c = true -> q c = true) -> allChars p s = true -> allChars q s = true.
Proof.
  intros Hpq. induction s as [ | c s IH]; [ reflexivity | ].
  cbn [allChars]. rewrite !andb_true_iff. intros [Hc Hs]. split; auto.
Qed.

Lemma numeric_uint (d : Decimal.uint) :
  allChars numeric (NilEmpty.string_of_uint d) = true.
Proof. induction d; cbn; try assumption; reflexivity. Qed.

Lemma numeric_ofInteger (z : Z) :
  allChars numeric (ofInteger z) = true /\ ofInteger z <> "".
Proof.
  unfold ofInteger, NilZero.string_of_int, NilZero.string_of_uint.
  destruct (Z.to_int z) as [d | d]; destruct d; cbn; split;
    try discriminate; try reflexivity; apply numeric_uint.
Qed.

Lemma numeric_lower (c : ascii) : numeric c = true -> lowerAscii c = c.
Proof.
  destruct c as [[] [] [] [] [] [] [] []]; cbn; intros H;
    first [ reflexivity | discriminate H ].
Qed.

Lemma toLowerCase_numeric (s : string) :
  allChars numeric s = true -> toLowerCase s = s.
Proof.
  induction s as [ | c s IH]; [ reflexivity | ].
  cbn [allChars toLowerCase]. rewrite andb_true_iff. intros [Hc Hs].
  rewrite (numeric_lower c Hc), (IH Hs). reflexivity.
Qed.

Lemma numeric_not_in (n : string) :
  allChars (fun c => negb (numeric c)) n = true ->
  forall c, numeric c = true -> negb (occurs c n) = true.
Proof.
  induction n as [ | x n IH]; intros Hn c Hc; [ reflexivity | ].
  cbn [allChars] in Hn. apply andb_true_iff in Hn. destruct Hn as [Hx Hn].
  cbn [occurs]. rewrite negb_orb, (IH Hn c Hc), andb_true_r.
  destruct (Ascii.eqb_spec c x) as [-> | _]; [ | reflexivity ].
  rewrite Hc in Hx. discriminate Hx.
Qed.

Lemma stall_text_shape (m : Z) :
  toLowerCase (stringOfThrown (ThrownError (stallMessage m)))
  = toLowerCase "Error: FFmpeg encoding stalled: No progress detected for "
    ++ ofInteger m ++ toLowerCase stallAdvice.
Proof.
  destruct (numeric_ofInteger m) as [Hnum _].
  change (stringOfThrown (ThrownError (stallMessage m)))
    with ("Error: FFmpeg encoding stalled: No progress detected for "
          ++ ofInteger m ++ stallAdvice).
  rewrite !toLowerCase_app, (toLowerCase_numeric _ Hnum). reflexivity.
Qed.

Lemma stall_text_lacks (n : string) (m : Z) :
  n <> "" ->
  allChars (fun c => negb (numeric c)) n = true ->
  includes (toLowerCase "Error: FFmpeg encoding stalled: No progress detected for ") n
  = false ->
  includes (toLowerCase stallAdvice) n = false ->
  includes (toLowerCase (stringOfThrown (ThrownError (stallMessage m)))) n = false.
Proof.
  intros Hne Hn Hp Hs.
  destruct (numeric_ofInteger m) as [Hnum Hd].
  rewrite stall_text_shape, includes_around_numeric; try assumption.
  - rewrite Hp, Hs. reflexivity.
  - apply (allChars_weaken numeric); [ apply numeric_not_in; exact Hn | exact Hnum ].
Qed.

Lemma stall_text_mentions_oom (m : Z) :
  includes (toLowerCase (stringOfThrown (ThrownError (stallMessage m)))) "oom" = true.
Proof.
  rewrite stall_text_shape. do 2 apply includes_app_r. vm_compute. reflexivity.
Qed.

Lemma stall_error_is_classified_out_of_memory
    {A : Type} (j : EncodeJob (A:=A)) (m : Z) :
  classifyExecError j (ThrownError (stallMessage m)) = OutOfMemory.
Proof.
  unfold classifyExecError.
  rewrite (stall_text_lacks "signature mismatch"), (stall_text_lacks "indirect call"),
    stall_text_mentions_oom;
    try discriminate; vm_compute; reflexivity.
Qed.

End StringFacts.

Section StallOutcome.
Context {A : Type} `{JsNum A}.
Variable toFixed1 : A -> string.

(** Whenever the liveness poll rejects the encode, [transcode] stores the
    out-of-memory error. *)
Lemma stall_rejection_is_reported_out_of_memory
    (hook : HookState) (req : Request) (env : FfmpegEnv)
    (probeCalls : list EngineCall) (duration bitrate : A) (j : EncodeJob) (m : Z) :
  ffmpegPresent hook = true -> isLoaded hook = true ->
  getVideoDuration hook (reqFile req) (envMetadata env) (envProbe env)
  = (probeCalls, Ok duration) ->
  calculateBitrate (reqTargetSizeMB req) duration
    (audioBitrateKbpsOf (reqRemoveAudio req) (reqOptimizeAudio req))
  = Ok bitrate ->
  jltb bitrate (ofZ 100) = false ->
  awaitExec duration (envEvents env) (newJob (envStart env))
  = (j, Rejected (ThrownError (stallMessage m))) ->
  outcome (transcode toFixed1 hook req env) = Some (Err OutOfMemory).
Proof.
  intros Hp Hl Hd Hb Hok Hrun.
  unfold transcode. rewrite Hp, Hl, Hd. cbn [negb]. rewrite Hb, Hok, Hrun.
  unfold failed. cbn [outcome].
  rewrite stall_error_is_classified_out_of_memory. reflexivity.
Qed.

End StallOutcome.

(** C8 fails on the code. In [stalledEnv] the last progress is logged one
    second after the start; the poll at 210 s finds 209 s without progress
    and rejects the encode with the stalled-encoding error (3 minutes). The
    [catch] around the encode then searches the error text for 'oom' and
    'out of memory', finds them in the stall message's own list of causes,
    and re-throws the out-of-memory error: [transcode] stores
    [OutOfMemory], and the stalled-encoding message never reaches the
    caller. In [abortedAfterCompletionEnv], an abort logged after the
    completion marker, the encode completes with the warning. Exact
    arithmetic and binary64 agree. *)
Theorem stalled_encode_is_reported_as_out_of_memory :
  (forall toFixed1 : Q -> string,
      snd (awaitExec 90 (envEvents (A:=Q) stalledEnv) (newJob 0))
      = Rejected (ThrownError (stallMessage 3))
      /\ (forall j : EncodeJob (A:=Q),
             classifyExecError j (ThrownError (stallMessage 3)) = OutOfMemory)
      /\ outcome (transcode toFixed1 loadedHook (sampleRequest 8) stalledEnv)
         = Some (Err OutOfMemory)
      /\ outcome (transcode toFixed1 loadedHook (sampleRequest 8)
                    abortedAfterCompletionEnv)
         = Some (Ok 8000000%Z)
      /\ cleanupWarning (transcode toFixed1 loadedHook (sampleRequest 8)
                           abortedAfterCompletionEnv)
         = true)
  /\ (forall toFixed1 : float -> string,
         outcome (transcode toFixed1 loadedHook (sampleRequest (ofZ 8)) stalledEnv)
         = Some (Err OutOfMemory)
         /\ outcome (transcode toFixed1 loadedHook (sampleRequest (ofZ 8))
                       abortedAfterCompletionEnv)
            = Some (Ok 8000000%Z)).
Proof.
  split; intros toFixed1; repeat split; try (intros j); vm_compute; reflexivity.
Qed.

(** ** Dual-engine fallback *)

Section Fallback.
Context {A : Type} `{JsNum A}.
Variable toFixed1 : A -> string.

Lemma forwarded_request (req : Request (A:=A)) :
  {| reqFile := reqFile req;
     reqTargetSizeMB := reqTargetSizeMB req;
     reqRemoveAudio := reqRemoveAudio req;
     reqOptimizeAudio := reqOptimizeAudio req;
     reqOutputResolution := reqOutputResolution req;
     reqInputWidth := reqInputWidth req;
     reqInputHeight := reqInputHeight req |} = req.
Proof. destruct req. reflexivity. Qed.

Lemma load_steps (hook : ProHook) (env : ProEnv) :
  filter (isSubmitSoftware (A:=A)) (fst (load hook env)) = []
  /\ filter (isSubmitHardware (A:=A)) (fst (load hook env)) = [].
Proof.
  unfold load.
  destruct (webCodecsAttempted hook); [ destruct (engine hook) | ];
    try destruct (webCodecsAvailable env); split; reflexivity.
Qed.

(** Whenever the hardware transcoder returns [null] it gives a reason:
    the conversion was invalid (discarded tracks), an error was caught, or
    the output was nearly as large as the input. *)
Lemma hardware_failure_has_reason (req : Request) (env : MediaBunnyEnv) :
  mbResult (transcodeWithMediaBunny req env) = None ->
  exists reason,
    mbFallbackReason (transcodeWithMediaBunny req env) = Some reason.
Proof.
  unfold transcodeWithMediaBunny.
  destruct (mbDuration env); [ | cbn; eauto ].
  destruct (mbVideoTrack env); [ | cbn; eauto ].
  destruct (negb (mbIsValid env)); [ cbn; eauto | ].
  destruct (mbExecute env); [ cbn; eauto | ].
  destruct (mbOutputBytes env =? 0)%Z; [ cbn; eauto | ].
  match goal with |- context [if ?c then _ else _] => destruct c end;
    cbn; [ eauto | discriminate ].
Qed.

(** The fallback, when it is taken. *)
Lemma transcodePro_fallback (hook : ProHook) (env : ProEnv) (req : Request) :
  engine hook <> Wasm ->
  snd (load hook env) = true ->
  mbResult (transcodeWithMediaBunny req (mediaBunny env)) = None ->
  hasError (wasmError hook) = false ->
  wasmLoads env = true ->
  let hw := transcodeWithMediaBunny req (mediaBunny env) in
  let reason :=
    match mbFallbackReason hw with
    | Some r => r
    | None => DEFAULT_FALLBACK_REASON
    end in
  let run := softwareTranscode toFixed1 true hook env req in
  transcodePro toFixed1 hook env req
  = ((fst (load hook env)
      ++ [SubmitHardware req hw; SetFallbackReason reason; LoadWasm;
          SetEngine Wasm; SubmitSoftware req run])%list,
     ProDelegated (outcome run)).
Proof.
  intros Hengine Hload Hnull Herr Hwasm hw reason run.
  subst hw reason run.
  unfold transcodePro. rewrite forwarded_request.
  destruct (load hook env) as [steps ok]. cbn [fst snd] in *. subst ok.
  cbv zeta. cbn [negb].
  destruct (engine hook); [ | congruence | ].
  all: rewrite Hnull, Herr, Hwasm; cbn [negb].
  all: rewrite <- app_assoc; reflexivity.
Qed.

(** Each engine is given the request at most once, and unchanged. *)
Lemma transcodePro_submissions (hook : ProHook) (env : ProEnv) (req : Request) :
  let steps := fst (transcodePro toFixed1 hook env req) in
  (List.length (filter (isSubmitSoftware (A:=A)) steps) <= 1)%nat
  /\ (List.length (filter (isSubmitHardware (A:=A)) steps) <= 1)%nat
  /\ forall s, In s steps ->
       match s with
       | SubmitSoftware r _ | SubmitHardware r _ => r = req
       | _ => True
       end.
Proof.
  cbv zeta. unfold transcodePro. rewrite forwarded_request. cbv zeta.
  pose proof (load_steps hook env) as [Lsw Lhw].
  assert (Lin : forall s, In s (fst (load hook env)) ->
              match s with
              | SubmitSoftware r _ | SubmitHardware r _ => r = req
              | _ => True
              end).
  { unfold load.
    destruct (webCodecsAttempted hook); [ destruct (engine hook) | ];
      try destruct (webCodecsAvailable env); cbn;
      intros s Hs; repeat (destruct Hs as [<- | Hs]; [ exact I | ]);
      destruct Hs. }
  destruct (load hook env) as [steps ok]. cbn [fst] in *.
  assert (Hin : forall extra,
             (forall s, In s extra ->
                match s with
                | SubmitSoftware r _ | SubmitHardware r _ => r = req
                | _ => True
                end) ->
             forall s, In s (steps ++ extra) ->
               match s with
               | SubmitSoftware r _ | SubmitHardware r _ => r = req
               | _ => True
               end).
  { intros extra Hextra s Hs. apply in_app_or in Hs.
    destruct Hs; [ apply Lin | apply Hextra ]; assumption. }
  destruct ok; cbn [negb fst].
  2: { rewrite Lsw, Lhw. repeat split; try (cbn; lia). exact Lin. }
  destruct (engine hook).
  2: { cbn [fst]. rewrite !filter_app, Lsw, Lhw. cbn. repeat split; try lia.
       apply Hin. intros s [<- | []]. reflexivity. }
  all: destruct (mbResult (transcodeWithMediaBunny req (mediaBunny env)));
    [ | destruct (negb (hasError (wasmError hook)));
        [ destruct (negb (wasmLoads env)) | ] ].
  all: cbn [fst]; rewrite <- ?app_assoc, !filter_app, Lsw, Lhw; cbn.
  all: repeat split; try lia.
  all: apply Hin; cbn; intros s Hs.
  all: repeat (destruct Hs as [<- | Hs]; [ try exact I; reflexivity | ]).
  all: destruct Hs.
Qed.

(** While the hardware engine is selected the software transcoder has not
    been loaded, and the progress its closures hold is 0. *)
Lemma pro_reachable_invariant (h : ProHook) :
  ProReachable toFixed1 h ->
  (isLoaded (wasmHook h) = true ->
   engine h = Wasm /\ webCodecsAttempted h = true)
  /\ progress (wasmHook h) = ofZ 0.
Proof.
  induction 1 as [ | h env Hr IH | h env req Hr IH | h Hr IH | h e Hr IH ].
  - split; [ discriminate | reflexivity ].
  - destruct IH as [IH1 IH2]. unfold afterProRun, load.
    destruct h as [eng att err [fp il pr]]. cbn in IH1, IH2 |- *.
    destruct att, eng, (webCodecsAvailable env), (wasmLoads env) eqn:Ew, il;
      cbn; rewrite ?Ew; cbn;
      split; intros; try tauto; try (split; congruence); try congruence;
      try (destruct (IH1 eq_refl); congruence).
  - destruct IH as [IH1 IH2]. unfold afterProRun, transcodePro, load.
    destruct h as [eng att err [fp il pr]]. cbn in IH1, IH2 |- *.
    destruct att, eng, (webCodecsAvailable env), (wasmLoads env) eqn:Ew, il;
      cbn; rewrite ?Ew; cbn;
      repeat match goal with
             | |- context [mbResult ?r] => destruct (mbResult r); cbn
             | |- context [hasError ?e] => destruct (hasError e); cbn
             end;
      rewrite ?fold_left_app; cbn; rewrite ?Ew; cbn;
      split; intros; try tauto; try (split; congruence); try congruence;
      try (destruct (IH1 eq_refl); congruence).
  - destruct IH as [IH1 IH2]. cbn. split; assumption.
  - destruct IH as [IH1 IH2]. cbn. split; assumption.
Qed.

(** The captured [wasmTranscoder.transcode] of a render in which the
    software transcoder was not loaded refuses the request, after
    [wasmTranscoder.load()] has created the FFmpeg instance or not. *)
Lemma stale_software_transcode (loaded : bool) (hook : ProHook) (env : ProEnv)
    (req : Request) :
  isLoaded (wasmHook hook) = false ->
  softwareTranscode toFixed1 true hook env req
  = {| engineCalls := []; outcome := Some (Err FfmpegNotReady);
       cleanupWarning := false |}.
Proof.
  intros Hl. unfold softwareTranscode, transcode. cbn [ffmpegPresent isLoaded].
  rewrite orb_true_r, Hl. reflexivity.
Qed.

(** No fallback while the software transcoder holds an error. *)
Lemma transcodePro_without_fallback (hook : ProHook) (env : ProEnv) (req : Request) :
  engine hook <> Wasm ->
  snd (load hook env) = true ->
  mbResult (transcodeWithMediaBunny req (mediaBunny env)) = None ->
  hasError (wasmError hook) = true ->
  transcodePro toFixed1 hook env req
  = ((fst (load hook env)
      ++ [SubmitHardware req (transcodeWithMediaBunny req (mediaBunny env))])%list,
     ProNull).
Proof.
  intros Hengine Hload Hnull Herr.
  unfold transcodePro. rewrite forwarded_request.
  destruct (load hook env) as [steps ok]. cbn [fst snd] in *. subst ok.
  cbv zeta. cbn [negb].
  destruct (engine hook); [ | congruence | ].
  all: rewrite Hnull, Herr; reflexivity.
Qed.

(** C9 fails on the code. When the hardware engine returns [null] and the
    fallback is taken, [transcode] of [useTranscoderPro] calls
    [wasmTranscoder.load()] and then [wasmTranscoder.transcode] with the
    same file, target size, audio flags, resolution cap and input
    dimensions, once -- but on the [wasmTranscoder] object of the render
    that created the closure. In every state the hook can be in while the
    hardware engine is selected, the software transcoder of that render
    is not loaded, so its [transcode] stops at its [isLoaded] guard: it
    stores 'FFmpeg is not loaded yet.', makes no engine call and returns
    [null]. The request never reaches FFmpeg; the fallback reason is set
    and the engine switched for the next attempt only. And while the
    software transcoder holds an error, no fallback is attempted at all
    and [null] is returned without a reason. In every run each engine's
    [transcode] is called at most once, with the request unchanged. *)
Theorem fallback_is_refused_by_the_stale_software_closure :
  (forall (hook : ProHook) (env : ProEnv) (req : Request),
      ProReachable toFixed1 hook ->
      engine hook <> Wasm ->
      snd (load hook env) = true ->
      mbResult (transcodeWithMediaBunny req (mediaBunny env)) = None ->
      hasError (wasmError hook) = false ->
      wasmLoads env = true ->
      exists reason : string,
        mbFallbackReason (transcodeWithMediaBunny req (mediaBunny env))
        = Some reason
        /\ transcodePro toFixed1 hook env req
           = ((fst (load hook env)
               ++ [SubmitHardware req
                     (transcodeWithMediaBunny req (mediaBunny env));
                   SetFallbackReason reason; LoadWasm; SetEngine Wasm;
                   SubmitSoftware req
                     {| engineCalls := [];
                        outcome := Some (Err FfmpegNotReady);
                        cleanupWarning := false |}])%list,
              ProDelegated (Some (Err FfmpegNotReady))))
  /\ (forall (hook : ProHook) (env : ProEnv) (req : Request),
         engine hook <> Wasm ->
         snd (load hook env) = true ->
         mbResult (transcodeWithMediaBunny req (mediaBunny env)) = None ->
         hasError (wasmError hook) = true ->
         transcodePro toFixed1 hook env req
         = ((fst (load hook env)
             ++ [SubmitHardware req
                   (transcodeWithMediaBunny req (mediaBunny env))])%list,
            ProNull))
  /\ (forall (hook : ProHook) (env : ProEnv) (req : Request),
         (List.length (filter (isSubmitSoftware (A:=A))
                         (fst (transcodePro toFixed1 hook env req))) <= 1)%nat
         /\ (List.length (filter (isSubmitHardware (A:=A))
                            (fst (transcodePro toFixed1 hook env req))) <= 1)%nat
         /\ forall s, In s (fst (transcodePro toFixed1 hook env req)) ->
              match s with
              | SubmitSoftware r _ | SubmitHardware r _ => r = req
              | _ => True
              end).
Proof.
  split; [ | split ].
  - intros hook env req Hreach Hengine Hload Hnull Herr Hwasm.
    destruct (hardware_failure_has_reason req (mediaBunny env) Hnull)
      as [reason Hreason].
    exists reason. split; [ exact Hreason | ].
    rewrite (transcodePro_fallback hook env req Hengine Hload Hnull Herr Hwasm).
    cbv zeta. rewrite Hreason.
    destruct (pro_reachable_invariant hook Hreach) as [Hinv _].
    assert (Hstale : isLoaded (wasmHook hook) = false).
    { destruct (isLoaded (wasmHook hook)); [ | reflexivity ].
      destruct (Hinv eq_refl) as [Hw _]. congruence. }
    rewrite (stale_software_transcode true hook env req Hstale). reflexivity.
  - apply transcodePro_without_fallback.
  - apply transcodePro_submissions.
Qed.

End Fallback.

Lemma fallback_is_refused_by_the_stale_software_closure_witness :
  ProReachable toFixed1_exact (hookWebCodecs (A:=Q))
  /\ transcodePro toFixed1_exact hookWebCodecs unsupportedCodecProEnv
       (sampleRequest 8)
     = ([SubmitHardware (sampleRequest 8)
           (transcodeWithMediaBunny (sampleRequest 8) unsupportedCodecEnv);
         SetFallbackReason
           "Your video uses a codec that WebCodecs cannot decode (e.g. HEVC, certain VP9, or older formats). Using FFmpeg fallback for compatibility.";
         LoadWasm; SetEngine Wasm;
         SubmitSoftware (sampleRequest 8)
           {| engineCalls := [];
              outcome := Some (Err FfmpegNotReady);
              cleanupWarning := false |}],
        ProDelegated (Some (Err FfmpegNotReady)))
  /\ ProReachable toFixed1_exact (hookWithWasmError (A:=Q))
  /\ transcodePro toFixed1_exact hookWithWasmError unsupportedCodecProEnv
       (sampleRequest 8)
     = ([SubmitHardware (sampleRequest 8)
           (transcodeWithMediaBunny (sampleRequest 8) unsupportedCodecEnv)],
        ProNull).
Proof.
  assert (R1 : ProReachable toFixed1_exact (hookWebCodecs (A:=Q))).
  { exact (@reach_load Q _ toFixed1_exact initialProHook unsupportedCodecProEnv
             (@reach_initial Q _ toFixed1_exact)). }
  assert (R2 : ProReachable toFixed1_exact (hookWithWasmError (A:=Q))).
  { exact (@reach_error Q _ toFixed1_exact _
             (Some "Failed to load FFmpeg core file (ffmpeg-core.js)."%string)
             (@reach_instance Q _ toFixed1_exact _ R1)). }
  split; [ exact R1 | ]. split; [ | split; [ exact R2 | ] ].
  - destruct (proj1 (fallback_is_refused_by_the_stale_software_closure
                       toFixed1_exact)
                hookWebCodecs unsupportedCodecProEnv (sampleRequest 8) R1
                ltac:(cbn; discriminate) eq_refl eq_refl eq_refl eq_refl)
      as (reason & Hreason & Hrun).
    rewrite Hrun. injection Hreason as <-. reflexivity.
  - exact (proj1 (proj2 (fallback_is_refused_by_the_stale_software_closure
                           toFixed1_exact))
             hookWithWasmError unsupportedCodecProEnv (sampleRequest 8)
             ltac:(cbn; discriminate) eq_refl eq_refl eq_refl).
Defined.
